(** * koishi plugin-eval worker: scope commits, eval/addon lifecycle,
      addon registry and stack-trace sanitising.

    Shallow embedding of [packages/plugin-eval/src/worker.ts].  JavaScript
    objects that are shared and mutated (the observed user and channel
    records, the global object of the [vm], the module-level [commandMap] and
    [pathMapper]) live in an explicit [World]; promises are run to
    completion, so an [async] function is a function from a world to a
    completion and a new world. *)

From Stdlib Require Import String Ascii ZArith List Bool.
From stdpp Require Import gmap strings pretty list.

Local Open Scope Z_scope.
Local Open Scope stdpp_scope.

(** ** JavaScript string primitives used by the worker *)

Module JsString.

(** The double-quote character, the backslash, the line feed and the
    carriage return. *)
Definition dquote : ascii := ascii_of_nat 34.
Definition dq : string := String dquote "".
Definition backslash : ascii := ascii_of_nat 92.
Definition lf : ascii := ascii_of_nat 10.

(** Strings are sequences of code units below 256; texts with other code
    units (among them the line separators U+2028 and U+2029 and the white
    space beyond U+00A0) are not among them.  [\s] of a regular expression,
    on these code units: tab, line feed, vertical tab, form feed, carriage
    return, space and no-break space. *)
Definition is_white_space (c : ascii) : bool :=
  match nat_of_ascii c with
  | 9 | 10 | 11 | 12 | 13 | 32 | 160 => true
  | _ => false
  end%nat.

(** What [.] of a regular expression does not match, on these code units:
    line feed and carriage return. *)
Definition is_line_terminator (c : ascii) : bool :=
  match nat_of_ascii c with
  | 10 | 13 => true
  | _ => false
  end%nat.

(** [str.split(sep)] for a one-character separator: never empty. *)
Fixpoint split (sep : ascii) (s : string) : list string :=
  match s with
  | "" => [""]
  | String c t =>
      if Ascii.eqb c sep then "" :: split sep t
      else match split sep t with
           | h :: r => String c h :: r
           | [] => [String c ""]
           end
  end.

(** [arr.join(sep)]. *)
Definition join (sep : string) (l : list string) : string :=
  String.concat sep l.

(** [str.slice(n)] for [n >= 0]. *)
Fixpoint slice (n : nat) (s : string) : string :=
  match n, s with
  | O, _ => s
  | S k, "" => ""
  | S k, String _ t => slice k t
  end.

(** [str.startsWith(p)]. *)
Definition starts_with (p s : string) : bool := String.prefix p s.

End JsString.

Import JsString.

(** ** Values *)

(** The JavaScript values the worker handles.  Numbers are the integers; an
    [Error] instance carries its [name], [message] and [stack] text; any
    other object is kept by the text its string conversion gives. *)
Inductive Value : Type :=
| VUndefined
| VNull
| VBool (b : bool)
| VNum (n : Z)
| VStr (s : string)
| VError (name message stack : string)
| VObject (text : string).

(** How a promise settles: resolved with a value, or rejected (an exception
    at the [await]). *)
Inductive Completion : Type :=
| Normal (v : Value)
| Abrupt (e : Value).

Definition Value_eqb (a b : Value) : bool :=
  match a, b with
  | VUndefined, VUndefined => true
  | VNull, VNull => true
  | VBool x, VBool y => Bool.eqb x y
  | VNum x, VNum y => Z.eqb x y
  | VStr x, VStr y => String.eqb x y
  | VError n m s, VError n' m' s' => String.eqb n n' && String.eqb m m' && String.eqb s s'
  | VObject x, VObject y => String.eqb x y
  | _, _ => false
  end.

(** Template-literal conversion [`${v}`].  An integer prints in full, as
    JavaScript prints it below 10^21 in absolute value. *)
Definition to_string (v : Value) : string :=
  match v with
  | VUndefined => "undefined"
  | VNull => "null"
  | VBool true => "true"
  | VBool false => "false"
  | VNum n => pretty n
  | VStr s => s
  | VError name message _ => name +:+ ": " +:+ message
  | VObject text => text
  end.

(** [!v] is [negb (truthy v)]. *)
Definition truthy (v : Value) : bool :=
  match v with
  | VUndefined | VNull => false
  | VBool b => b
  | VNum n => negb (Z.eqb n 0)
  | VStr s => negb (String.eqb s "")
  | VError _ _ _ | VObject _ => true
  end.

(** [error instanceof Error]. *)
Definition instanceof_Error (v : Value) : bool :=
  match v with
  | VError _ _ _ => true
  | _ => false
  end.

(** ** formatError *)

Module Redact.

(** The two words of [/\s*.+(Script|MessagePort)[\s\S]*/]. *)
Definition machinery (s : string) : bool :=
  starts_with "Script" s || starts_with "MessagePort" s.

(** [.+(Script|MessagePort)] matches at the head of [s]: one or more
    characters of the same line, then one of the two words. *)
Fixpoint dot_plus_word (s : string) : bool :=
  match s with
  | "" => false
  | String c t => negb (is_line_terminator c) && (machinery t || dot_plus_word t)
  end.

(** [\s*.+(Script|MessagePort)] matches at the head of [s].  What follows,
    [[\s\S]*], takes the rest of the text whatever it is. *)
Fixpoint frame_match (s : string) : bool :=
  dot_plus_word s ||
  match s with
  | "" => false
  | String c t => is_white_space c && frame_match t
  end.

(** [stack.replace(/\s*.+(Script|MessagePort)[\s\S]*/, '')]: the leftmost
    match runs to the end of the text and is replaced by nothing. *)
Fixpoint cut_machinery (s : string) : string :=
  if frame_match s then ""
  else match s with
       | "" => ""
       | String c t => String c (cut_machinery t)
       end.

(** One entry of [pathMapper]: the identifier and the path [p] of its
    pattern [new RegExp(`(at | \\()${escapeRegExp(p)}`, 'g')]. *)
Definition Rule : Type := (string * string)%type.

(** The pattern at the head of [s]: the text of group 1 and the text of
    the whole match. *)
Definition rule_match (path s : string) : option (string * string) :=
  if starts_with ("at " +:+ path) s then Some ("at ", "at " +:+ path)
  else if starts_with (" (" +:+ path) s then Some (" (", " (" +:+ path)
  else None.

(** Expansion of a replacement string for a pattern with one group:
    [$$], [$&], [$`], [$'], [$1] and [$01]; any other [$] stands for
    itself. *)
Fixpoint substitution (group1 matched before after template : string) : string :=
  match template with
  | EmptyString => EmptyString
  | String "$"%char rest =>
      match rest with
      | String "$"%char r => "$" +:+ substitution group1 matched before after r
      | String "&"%char r => matched +:+ substitution group1 matched before after r
      | String "`"%char r => before +:+ substitution group1 matched before after r
      | String "'"%char r => after +:+ substitution group1 matched before after r
      | String "0"%char (String "1"%char r) =>
          group1 +:+ substitution group1 matched before after r
      | String "1"%char r => group1 +:+ substitution group1 matched before after r
      | _ => "$" +:+ substitution group1 matched before after rest
      end
  | String c rest => String c (substitution group1 matched before after rest)
  end.

(** [line.replace(pattern, '$1' + name)] with the global flag: matches
    are taken left to right and do not overlap.  [skip] counts the
    characters of the current match still to pass, [before] is the text
    already passed. *)
Fixpoint replace_from (path name : string) (skip : nat) (before s : string) : string :=
  match s with
  | "" => ""
  | String c t =>
      match skip with
      | S k => replace_from path name k (before +:+ String c "") t
      | O =>
          match rule_match path s with
          | Some (g1, m) =>
              substitution g1 m before (slice (String.length m) s) ("$1" +:+ name)
                +:+ replace_from path name (String.length m - 1) (before +:+ String c "") t
          | None => String c (replace_from path name 0 (before +:+ String c "") t)
          end
      end
  end.

Definition replace_rule (r : Rule) (line : string) : string :=
  replace_from (snd r) (fst r) 0 "" line.

(** [for (const name in pathMapper) line = line.replace(...)]. *)
Definition rewrite_line (pathMapper : list Rule) (line : string) : string :=
  fold_left (fun l r => replace_rule r l) pathMapper line.

End Redact.

Definition formatError (pathMapper : list Redact.Rule) (error : Value) : string :=
  match error with
  | VError _ _ stack =>
      join (String lf "")
        (map (Redact.rewrite_line pathMapper) (split lf (Redact.cut_machinery stack)))
  | _ => "Uncaught: " +:+ to_string error
  end.

(** ** Objects, the host and the world *)

(** A plain object as the list of its own properties in the order of their
    first assignment.  This is the order [Object.keys] and [for ... in] give
    for the names that are [plain_name] below; array indices come first in
    JavaScript, and an assignment to [__proto__] adds no property, so the
    statements that depend on the order of names are made for plain names. *)
Definition obj_keys {V : Type} (o : list (string * V)) : list string := map fst o.

(** A property name that is listed in the order of its first assignment: it
    does not start with a digit, so it is no array index, and it is not
    [__proto__]. *)
Definition plain_name (k : string) : bool :=
  negb (String.eqb k "__proto__") &&
  match k with
  | String c _ => match Ascii.is_nat c with Some _ => false | None => true end
  | "" => true
  end.

Fixpoint obj_get {V : Type} (k : string) (o : list (string * V)) : option V :=
  match o with
  | [] => None
  | (k', v) :: r => if String.eqb k k' then Some v else obj_get k r
  end.

(** [o[k] = v]. *)
Fixpoint obj_set {V : Type} (k : string) (v : V) (o : list (string * V)) : list (string * V) :=
  match o with
  | [] => [(k, v)]
  | (k', v') :: r => if String.eqb k k' then (k, v) :: r else (k', v') :: obj_set k v r
  end.

(** A property read: a missing property is [undefined]. *)
Definition obj_read (k : string) (o : list (string * Value)) : Value :=
  match obj_get k o with Some v => v | None => VUndefined end.

(** The names every plain object inherits from [Object.prototype]. *)
Definition Object_prototype : list string :=
  ["constructor"; "toString"; "toLocaleString"; "valueOf"; "hasOwnProperty";
   "isPrototypeOf"; "propertyIsEnumerable"; "__proto__"; "__defineGetter__";
   "__defineSetter__"; "__lookupGetter__"; "__lookupSetter__"].

(** The outcome of [o[k]] on a plain object. *)
Inductive Member (V : Type) : Type :=
| Own (v : V)
| Inherited (k : string)
| Missing.
Arguments Own {V} v.
Arguments Inherited {V} k.
Arguments Missing {V}.

Definition obj_member {V : Type} (k : string) (o : list (string * V)) : Member V :=
  match obj_get k o with
  | Some v => Own v
  | None => if existsb (String.eqb k) Object_prototype then Inherited k else Missing
  end.

(** Modelled from the spec: [difference] of koishi-utils is not among the
    sources; it gives the names of its first list that the second does not
    hold (the changed fields outside the allow-list), in the order of the
    first. *)
Definition difference (array exclude : list string) : list string :=
  List.filter (fun x => negb (existsb (String.eqb x) exclude)) array.

(** The operations consumed from the main thread through [wrap(parentPort)]. *)
Inductive HostCall : Type :=
| updateUser (id : string) (diff : list (string * Value))
| updateGroup (id : string) (diff : list (string * Value))
| send (id : string) (content : string)
| execute (id : string) (message : string).

Definition is_update (c : HostCall) : bool :=
  match c with
  | updateUser _ _ | updateGroup _ _ => true
  | _ => false
  end.

(** The two update functions [Scope] hands to [observe], as closures over
    the session id and the allow-list. *)
Inductive UpdateFunction : Type :=
| UserUpdate (id : string) (userWritable : list string)
| ChannelUpdate (id : string) (channelWritable : list string).

(** Modelled from the spec: [observe] of koishi-utils is not among the
    sources.  An observed record is a base record, the pending changes
    (changed field to new value, since the last commit) and the update
    function to call at commit. *)
Record Observed : Type := {
  target : list (string * Value);
  _diff : list (string * Value);
  update : UpdateFunction;
}.

Record ScopeObject : Type := {
  user : option nat;
  channel : option nat;
  session : string;
}.

(** The two records of a scope. *)
Inductive Kind : Type := UserRecord | ChannelRecord.

Definition record (k : Kind) (scope : ScopeObject) : option nat :=
  match k with
  | UserRecord => user scope
  | ChannelRecord => channel scope
  end.

Module ScopeData.
Record t : Type := {
  id : string;
  user : option (list (string * Value));
  channel : option (list (string * Value));
  userWritable : list string;
  channelWritable : list string;
}.
End ScopeData.

Module AddonArgv.
Record t : Type := {
  name : string;
  args : list string;
  options : list (string * Value);
}.
End AddonArgv.

Record EvalOptions : Type := {
  silent : bool;
  source : string;
}.

(** What code running with a scope can do, one operation at a time: assign
    or read a field of a record, commit a record ([user._update()]), [send],
    [exec], and look whether the global [Symbol.for(key)] is defined. *)
Inductive Op : Type :=
| SetUser (key : string) (v : Value)
| SetChannel (key : string) (v : Value)
| GetUser (key : string)
| GetChannel (key : string)
| Commit (k : Kind)
| Send (param : list Value)
| Exec (message : Value)
| ProbeGlobal (key : string).

Definition is_commit (op : Op) : bool :=
  match op with
  | Commit _ => true
  | _ => false
  end.

(** Code that runs with a scope (user source, an addon handler), by what
    it does through the scope of its call: it ends with a value or none,
    raises, performs an operation and goes on with its outcome, or registers
    a command.  Code that keeps the scope of an earlier call, or writes
    globals of the [vm] itself, is not of this type. *)
Inductive Script : Type :=
| Done (v : option Value)
| Raise (e : Value)
| Step (op : Op) (next : Completion -> Script)
| Register (name : string) (callback : AddonArgv.t -> Script) (next : Script).

Definition AddonAction : Type := AddonArgv.t -> Script.

Inductive LogEntry : Type :=
| LogWarn (error : Value)
| LogDebug (format arg : string).

Record World : Type := {
  heap : gmap nat Observed;
  globals : gmap string ScopeObject;
  requests : list HostCall;
  logger : list LogEntry;
  commandMap : list (string * AddonAction);
  response : option (list string);
  pathMapper : list Redact.Rule;
}.

Definition set_heap (h : gmap nat Observed) (w : World) : World :=
  {| heap := h; globals := globals w; requests := requests w; logger := logger w;
     commandMap := commandMap w; response := response w; pathMapper := pathMapper w |}.

Definition set_globals (g : gmap string ScopeObject) (w : World) : World :=
  {| heap := heap w; globals := g; requests := requests w; logger := logger w;
     commandMap := commandMap w; response := response w; pathMapper := pathMapper w |}.

Definition set_requests (r : list HostCall) (w : World) : World :=
  {| heap := heap w; globals := globals w; requests := r; logger := logger w;
     commandMap := commandMap w; response := response w; pathMapper := pathMapper w |}.

Definition set_logger (l : list LogEntry) (w : World) : World :=
  {| heap := heap w; globals := globals w; requests := requests w; logger := l;
     commandMap := commandMap w; response := response w; pathMapper := pathMapper w |}.

Definition set_commandMap (m : list (string * AddonAction)) (w : World) : World :=
  {| heap := heap w; globals := globals w; requests := requests w; logger := logger w;
     commandMap := m; response := response w; pathMapper := pathMapper w |}.

Definition set_response (r : option (list string)) (w : World) : World :=
  {| heap := heap w; globals := globals w; requests := requests w; logger := logger w;
     commandMap := commandMap w; response := r; pathMapper := pathMapper w |}.

Definition set_pathMapper (m : list Redact.Rule) (w : World) : World :=
  {| heap := heap w; globals := globals w; requests := requests w; logger := logger w;
     commandMap := commandMap w; response := response w; pathMapper := m |}.

Definition empty_world : World :=
  {| heap := ∅; globals := ∅; requests := []; logger := []; commandMap := [];
     response := None; pathMapper := [] |}.

(** What the worker takes from its environment. *)
Record Runtime : Type := {
  (** the main thread behind [wrap(parentPort)]: its reply to a request,
      given the requests before it *)
  main : list HostCall -> HostCall -> Completion;
  (** the SyntaxError the [vm] raises for a script it cannot parse, none
      for a script that parses *)
  parse_error : string -> option Value;
  (** what the [vm] makes of the source text in the block of a script *)
  source_code : string -> Script;
  (** [util.formatWithOptions(config.inspect, ...param)] *)
  formatWithOptions : list Value -> string;
  (** the [stack] of an error the worker or the engine creates, from its
      name and message *)
  captureStack : string -> string -> string;
  (** calling, with the addon context as argument, the member of
      [Object.prototype] of that name *)
  call_inherited : string -> Completion;
  (** [findSourceMap(filename).payload.sources[0]] *)
  findSourceMap : string -> option string;
  dirname : string -> string;
  sep : string;
  (** the registrations the addon modules make while [prepare()] loads them *)
  addons : list (string * AddonAction);
  (** [config.setupFiles], [require.resolve('koishi-utils')], [__filename] *)
  setupFiles : list (string * string);
  koishi_utils : string;
  filename : string;
}.

(** ** Asynchronous functions *)

Inductive Outcome (A : Type) : Type :=
| Resolved (a : A)
| Rejected (e : Value).
Arguments Resolved {A} a.
Arguments Rejected {A} e.

Definition Async (A : Type) : Type := World -> Outcome A * World.

Definition resolve {A : Type} (a : A) : Async A := fun w => (Resolved a, w).
Definition reject {A : Type} (e : Value) : Async A := fun w => (Rejected e, w).

Definition await {A B : Type} (m : Async A) (k : A -> Async B) : Async B :=
  fun w =>
    match m w with
    | (Resolved a, w') => k a w'
    | (Rejected e, w') => (Rejected e, w')
    end.

Definition try_catch {A : Type} (m : Async A) (handler : Value -> Async A) : Async A :=
  fun w =>
    match m w with
    | (Resolved a, w') => (Resolved a, w')
    | (Rejected e, w') => handler e w'
    end.

Notation "'let*' x ':=' m 'in' k" := (await m (fun x => k))
  (at level 10, x name, m at level 100, k at level 200).

Definition of_completion (c : Completion) : Async Value :=
  match c with
  | Normal v => resolve v
  | Abrupt e => reject e
  end.

Definition to_completion (r : Outcome Value) : Completion :=
  match r with
  | Resolved v => Normal v
  | Rejected e => Abrupt e
  end.

(** ** Reading a script *)

(** A string that a string literal between double quotes holds as it is: no
    double quote, no backslash, no line break. *)
Definition literal_char (c : ascii) : bool :=
  negb (Ascii.eqb c dquote || Ascii.eqb c backslash || is_line_terminator c).

Fixpoint plain_literal (s : string) : bool :=
  match s with
  | "" => true
  | String c t => literal_char c && plain_literal t
  end.

(** Modelled from the spec: how the [vm], which is not among the sources,
    reads the text of a script of the shape
    [with (global[Symbol.for("k1")]) { delete global[Symbol.for("k2")]; source }],
    laid out as [eval] lays it out.  A string literal ends at the first
    double quote; literals with escapes are not covered. *)
Module Reader.

Definition open_with : string := "with (global[Symbol.for(" +:+ dq.

Definition open_delete : string :=
  ")]) {" +:+ String lf "" +:+ "        delete global[Symbol.for(" +:+ dq.

Definition close_delete : string := ")];" +:+ String lf "".

Definition close_block : string := String lf "" +:+ "      }".

(** [s] without [p] at its start. *)
Fixpoint strip_prefix (p s : string) : option string :=
  match p, s with
  | "", _ => Some s
  | String a p', String b s' => if Ascii.eqb a b then strip_prefix p' s' else None
  | String _ _, "" => None
  end.

(** [s] without [p] at its end. *)
Fixpoint strip_suffix (p s : string) : option string :=
  if String.eqb s p then Some ""
  else match s with
       | "" => None
       | String c t =>
           match strip_suffix p t with
           | Some r => Some (String c r)
           | None => None
           end
       end.

(** The content of a string literal, from after its opening quote, and the
    text after its closing quote. *)
Fixpoint read_literal (s : string) : option (string * string) :=
  match s with
  | "" => None
  | String c t =>
      if Ascii.eqb c dquote then Some ("", t)
      else if literal_char c
           then match read_literal t with
                | Some (k, r) => Some (String c k, r)
                | None => None
                end
           else None
  end.

(** What a script of the shape says: the key of the object of the [with],
    the key of the [delete], and the text of the source. *)
Record Parts : Type := {
  with_key : string;
  delete_key : string;
  body : string;
}.

Definition read_script (script : string) : option Parts :=
  match strip_prefix open_with script with
  | None => None
  | Some s1 =>
      match read_literal s1 with
      | None => None
      | Some (k1, s2) =>
          match strip_prefix open_delete s2 with
          | None => None
          | Some s3 =>
              match read_literal s3 with
              | None => None
              | Some (k2, s4) =>
                  match strip_prefix close_delete s4 with
                  | None => None
                  | Some s5 =>
                      match strip_suffix close_block s5 with
                      | None => None
                      | Some source =>
                          Some {| with_key := k1; delete_key := k2; body := source |}
                      end
                  end
              end
          end
      end
  end.

End Reader.

(** ** The worker *)

Section Worker.

Variable rt : Runtime.

(** [new TypeError(message)]. *)
Definition TypeError (message : string) : Value :=
  VError "TypeError" message (captureStack rt "TypeError" message).

Definition formatResult (param : list Value) : string :=
  formatWithOptions rt param.

(** A call through [main]: the request is posted, the reply awaited. *)
Definition call_main (c : HostCall) : Async Value :=
  fun w =>
    let w' := set_requests (requests w ++ [c]) w in
    match main rt (requests w) c with
    | Normal v => (Resolved v, w')
    | Abrupt e => (Rejected e, w')
    end.

(** The bodies of the two update functions of [Scope]. *)
Definition run_update (f : UpdateFunction) (diff : list (string * Value)) : Async Value :=
  match f with
  | UserUpdate id userWritable =>
      let diffKeys := difference (obj_keys diff) userWritable in
      if negb (Nat.eqb (length diffKeys) 0)
      then reject (TypeError ("cannot set user field: " +:+ join ", " diffKeys))
      else let* _ := call_main (updateUser id diff) in resolve VUndefined
  | ChannelUpdate id channelWritable =>
      let diffKeys := difference (obj_keys diff) channelWritable in
      if negb (Nat.eqb (length diffKeys) 0)
      then reject (TypeError ("cannot set group field: " +:+ join ", " diffKeys))
      else let* _ := call_main (updateGroup id diff) in resolve VUndefined
  end.

(** Modelled from the spec: [observe(target, update)] of koishi-utils is
    not among the sources; it wraps the record with no pending change. *)
Definition observe (record : list (string * Value)) (f : UpdateFunction) (w : World)
  : nat * World :=
  let l := fresh (dom (heap w)) in
  (l, set_heap (<[l := {| target := record; _diff := []; update := f |}]> (heap w)) w).

(** Modelled from the spec: an assignment to a field of an observed
    record; a value that differs from the current one is a pending
    change. *)
Definition observed_set (key : string) (v : Value) (o : Observed) : Observed :=
  {| target := obj_set key v (target o);
     _diff := if Value_eqb (obj_read key (target o)) v then _diff o
              else obj_set key v (_diff o);
     update := update o |}.

(** Modelled from the spec: [_update()] of an observed record, the commit.
    It calls the update function with the pending changes; when that
    succeeds nothing is pending any more, when it fails the record is as
    before. *)
Definition _update (l : nat) : Async Value :=
  fun w =>
    match heap w !! l with
    | None => (Rejected (TypeError "Cannot read properties of undefined"), w)
    | Some o =>
        match run_update (update o) (_diff o) w with
        | (Resolved v, w') =>
            (Resolved v,
             set_heap (<[l := {| target := target o; _diff := []; update := update o |}]>
                         (heap w')) w')
        | (Rejected e, w') => (Rejected e, w')
        end
    end.

Definition Scope (data : ScopeData.t) (w : World) : ScopeObject * World :=
  let (u, w1) :=
    match ScopeData.user data with
    | Some record =>
        let (l, w') :=
          observe record (UserUpdate (ScopeData.id data) (ScopeData.userWritable data)) w in
        (Some l, w')
    | None => (None, w)
    end in
  let (c, w2) :=
    match ScopeData.channel data with
    | Some record =>
        let (l, w') :=
          observe record
            (ChannelUpdate (ScopeData.id data) (ScopeData.channelWritable data)) w1 in
        (Some l, w')
    | None => (None, w1)
    end in
  ({| user := u; channel := c; session := ScopeData.id data |}, w2).

Definition registerCommand (name : string) (callback : AddonAction) (w : World) : World :=
  set_commandMap (obj_set name callback (commandMap w)) w.

(** A field of an observed record, written or read through the scope. *)
Definition field_set (record : option nat) (key : string) (v : Value) : Async Value :=
  fun w =>
    match record with
    | None => (Rejected (TypeError "Cannot set properties of undefined"), w)
    | Some l =>
        match heap w !! l with
        | None => (Rejected (TypeError "Cannot set properties of undefined"), w)
        | Some o => (Resolved v, set_heap (<[l := observed_set key v o]> (heap w)) w)
        end
    end.

Definition field_get (record : option nat) (key : string) : Async Value :=
  fun w =>
    match record with
    | None => (Rejected (TypeError "Cannot read properties of undefined"), w)
    | Some l =>
        match heap w !! l with
        | None => (Rejected (TypeError "Cannot read properties of undefined"), w)
        | Some o => (Resolved (obj_read key (target o)), w)
        end
    end.

(** [scope.send] and [scope.exec]. *)
Definition scope_send (scope : ScopeObject) (param : list Value) : Async Value :=
  call_main (send (session scope) (formatResult param)).

Definition scope_exec (scope : ScopeObject) (message : Value) : Async Value :=
  match message with
  | VStr m => call_main (execute (session scope) m)
  | _ => reject (TypeError ("The " +:+ dq +:+ "message" +:+ dq
                             +:+ " argument must be of type string"))
  end.

Definition perform (scope : ScopeObject) (op : Op) : Async Value :=
  match op with
  | SetUser key v => field_set (user scope) key v
  | SetChannel key v => field_set (channel scope) key v
  | GetUser key => field_get (user scope) key
  | GetChannel key => field_get (channel scope) key
  | Commit k =>
      match record k scope with
      | Some l => _update l
      | None => reject (TypeError "Cannot read properties of undefined")
      end
  | Send param => scope_send scope param
  | Exec message => scope_exec scope message
  | ProbeGlobal key =>
      fun w => (Resolved (VBool (bool_decide (is_Some (globals w !! key)))), w)
  end.

(** Running code with a scope; [Done None] is a body that ends without a
    value. *)
Fixpoint run_script (scope : ScopeObject) (s : Script) (w : World)
  : Outcome (option Value) * World :=
  match s with
  | Done v => (Resolved v, w)
  | Raise e => (Rejected e, w)
  | Step op next =>
      let (r, w') := perform scope op w in
      run_script scope (next (to_completion r)) w'
  | Register name callback next =>
      run_script scope next (registerCommand name callback w)
  end.

(** Modelled from the spec: [internal.setGlobal(key, value, allowOverwrite)]
    of the [vm], which is not among the sources; [key] stands for
    [Symbol.for(key)]. *)
Definition setGlobal (key : string) (value : ScopeObject) (allowOverwrite : bool)
  : Async unit :=
  fun w =>
    match globals w !! key with
    | Some _ =>
        if allowOverwrite then (Resolved tt, set_globals (<[key := value]> (globals w)) w)
        else (Rejected (TypeError ("Cannot redefine property: " +:+ key)), w)
    | None => (Resolved tt, set_globals (<[key := value]> (globals w)) w)
    end.

(** The value of a block: the value of its last statement that has one,
    and that of the [delete] statement, [true], if the source has none. *)
Definition block_value (r : Outcome (option Value) * World) : Outcome Value * World :=
  match r with
  | (Resolved (Some v), w) => (Resolved v, w)
  | (Resolved None, w) => (Resolved (VBool true), w)
  | (Rejected e, w) => (Rejected e, w)
  end.

(** [new SyntaxError(message)], raised by the [vm]. *)
Definition SyntaxError (message : string) : Value :=
  VError "SyntaxError" message (captureStack rt "SyntaxError" message).

(** Modelled from the spec: [vm.run(script, { filename, lineOffset })] of
    the [vm], which is not among the sources.  A script that does not parse
    raises its SyntaxError before anything runs.  A script that reads as
    [with (global[Symbol.for(k1)]) { delete global[Symbol.for(k2)]; source }]
    looks up the object of the [with] (an undefined one is a TypeError),
    runs the [delete] statement, then the source with the object as ambient
    bindings.  A script of another shape is not covered and is treated as
    one that does not parse. *)
Definition vm_run (script : string) : Async Value :=
  fun w =>
    match parse_error rt script with
    | Some e => (Rejected e, w)
    | None =>
        match Reader.read_script script with
        | None => (Rejected (SyntaxError "Invalid or unexpected token"), w)
        | Some p =>
            match globals w !! Reader.with_key p with
            | None =>
                (Rejected (TypeError "Cannot convert undefined or null to object"), w)
            | Some scope =>
                block_value
                  (run_script scope (source_code rt (Reader.body p))
                     (set_globals (delete (Reader.delete_key p) (globals w)) w))
            end
        end
    end.

(** A call of an addon handler: a handler that returns nothing gives
    [undefined]. *)
Definition call_value (r : Outcome (option Value) * World) : Outcome Value * World :=
  match r with
  | (Resolved (Some v), w) => (Resolved v, w)
  | (Resolved None, w) => (Resolved VUndefined, w)
  | (Rejected e, w) => (Rejected e, w)
  end.

Definition logger_warn (error : Value) : Async Value :=
  fun w => (Resolved VUndefined, set_logger (logger w ++ [LogWarn error]) w).

Definition logger_debug (format arg : string) (w : World) : World :=
  set_logger (logger w ++ [LogDebug format arg]) w.

(** [formatError] reads the module-level [pathMapper]. *)
Definition format_error (error : Value) : Async Value :=
  fun w => (Resolved (VStr (formatError (pathMapper w) error)), w).

End Worker.

Module WorkerAPI.
Section API.

Variable rt : Runtime.

Definition start (w : World) : option (list string) := response w.

Definition sync (scope : ScopeObject) : Async Value :=
  let* _ := match user scope with
            | Some l => _update rt l
            | None => resolve VUndefined
            end in
  let* _ := match channel scope with
            | Some l => _update rt l
            | None => resolve VUndefined
            end in
  resolve VUndefined.

Definition eval_key (id : string) : string := "koishi-eval-context:" +:+ id.

(** The template literal of [eval]: the script built around the source. *)
Definition script_text (key source : string) : string :=
  "with (global[Symbol.for(" +:+ dq +:+ key +:+ dq +:+ ")]) {" +:+ String lf ""
    +:+ "        delete global[Symbol.for(" +:+ dq +:+ key +:+ dq +:+ ")];"
    +:+ String lf "" +:+ source +:+ String lf "" +:+ "      }".

Definition eval (data : ScopeData.t) (options : EvalOptions) : Async Value :=
  let key := eval_key (ScopeData.id data) in
  fun w =>
    let (scope, w0) := Scope data w in
    (let* _ := setGlobal rt key scope true in
     let* r :=
       try_catch
         (let* result := vm_run rt (script_text key (source options)) in
          let* _ := sync scope in
          resolve (inl result))
         (fun error => let* text := format_error error in resolve (inr text)) in
     match r with
     | inr text => resolve text
     | inl result =>
         if Value_eqb result VUndefined || silent options then resolve VUndefined
         else resolve (VStr (formatResult rt [result]))
     end) w0.

Definition callAddon (options : ScopeData.t) (argv : AddonArgv.t) : Async Value :=
  fun w =>
    let callback := obj_member (AddonArgv.name argv) (commandMap w) in
    try_catch
      (fun w =>
         let (ctx, w0) := Scope options w in
         (let* result :=
            match callback with
            | Own f => fun w => call_value (run_script rt ctx (f argv) w)
            | Inherited k => of_completion (call_inherited rt k)
            | Missing => reject (TypeError rt "callback is not a function")
            end in
          let* _ := sync ctx in
          resolve result) w0)
      (fun error =>
         if negb (truthy (obj_read "debug" (AddonArgv.options argv)))
         then logger_warn error
         else format_error error)
      w.

End API.
End WorkerAPI.

Section Startup.

Variable rt : Runtime.

Definition mapDirectory (identifier filename : string) (w : World) : World :=
  match findSourceMap rt filename with
  | None => logger_debug "cannot find source map for %c" filename w
  | Some source0 =>
      let path := dirname rt (slice 7 source0) +:+ sep rt in
      set_pathMapper (obj_set identifier path (pathMapper w)) w
  end.

(** Modelled from the spec: [prepare()] of the loader, which is not among
    the sources, loads the addon modules; each registers its commands
    through [registerCommand]. *)
Definition prepare (w : World) : World :=
  fold_left (fun w a => registerCommand (fst a) (snd a) w) (addons rt) w.

Definition map_setupFile (w : World) (entry : string * string) : World :=
  let path := match findSourceMap rt (snd entry) with
              | Some source0 => slice 7 source0
              | None => snd entry
              end in
  set_pathMapper (obj_set (fst entry) path (pathMapper w)) w.

(** The module-level [start()], after which the API is exposed. *)
Definition startup (w : World) : World :=
  let w1 := prepare w in
  let w2 := set_response (Some (obj_keys (commandMap w1))) w1 in
  let w3 := mapDirectory "koishi/utils/" (koishi_utils rt) w2 in
  let w4 := mapDirectory "koishi/" (filename rt) w3 in
  fold_left map_setupFile (setupFiles rt) w4.

End Startup.

(** ** Notions used in the statements *)

(** What running code with a scope leaves in place: the records keep their
    update function, and the globals of the [vm], the path rules, the
    command list and the log stay. *)
Definition stable (w w' : World) : Prop :=
  (forall l o, heap w !! l = Some o ->
     exists o', heap w' !! l = Some o' /\ update o' = update o) /\
  globals w' = globals w /\
  pathMapper w' = pathMapper w /\
  response w' = response w /\
  logger w' = logger w.

(** A script that commits no record itself. *)
Inductive no_commit : Script -> Prop :=
| nc_done v : no_commit (Done v)
| nc_raise e : no_commit (Raise e)
| nc_step op next :
    is_commit op = false -> (forall c, no_commit (next c)) -> no_commit (Step op next)
| nc_register name callback next : no_commit next -> no_commit (Register name callback next).

(** A script that registers no command. *)
Inductive no_register : Script -> Prop :=
| nr_done v : no_register (Done v)
| nr_raise e : no_register (Raise e)
| nr_step op next : (forall c, no_register (next c)) -> no_register (Step op next).

(** Every changed field is on the allow-list. *)
Definition allowed (writable : list string) (diff : list (string * Value)) : bool :=
  forallb (fun k => existsb (String.eqb k) writable) (obj_keys diff).

Definition writable (k : Kind) (data : ScopeData.t) : list string :=
  match k with
  | UserRecord => ScopeData.userWritable data
  | ChannelRecord => ScopeData.channelWritable data
  end.

Definition update_request (k : Kind) (id : string) (diff : list (string * Value)) : HostCall :=
  match k with
  | UserRecord => updateUser id diff
  | ChannelRecord => updateGroup id diff
  end.

Definition is_updateUser (c : HostCall) : bool :=
  match c with updateUser _ _ => true | _ => false end.

Definition is_updateGroup (c : HostCall) : bool :=
  match c with updateGroup _ _ => true | _ => false end.

(** What [eval] does with the outcome of [vm.run]. *)
Definition eval_finish (rt : Runtime) (scope : ScopeObject) (options : EvalOptions)
    (r : Outcome Value * World) : Outcome Value * World :=
  match r with
  | (Resolved result, w1) =>
      match WorkerAPI.sync rt scope w1 with
      | (Resolved _, w2) =>
          (Resolved (if Value_eqb result VUndefined || silent options then VUndefined
                     else VStr (formatResult rt [result])), w2)
      | (Rejected e, w2) => (Resolved (VStr (formatError (pathMapper w2) e)), w2)
      end
  | (Rejected e, w1) => (Resolved (VStr (formatError (pathMapper w1) e)), w1)
  end.

(** What [callAddon] does with an error. *)
Definition addon_caught (argv : AddonArgv.t) (e : Value) (w : World) : Outcome Value * World :=
  if truthy (obj_read "debug" (AddonArgv.options argv))
  then (Resolved (VStr (formatError (pathMapper w) e)), w)
  else (Resolved VUndefined, set_logger (logger w ++ [LogWarn e]) w).

(** The execution of the source inside [eval]: scope, handle, [vm.run]. *)
Definition eval_execution (rt : Runtime) (data : ScopeData.t) (options : EvalOptions)
  : World -> Outcome Value * World :=
  fun w =>
    let (scope, w0) := Scope data w in
    (let* _ := setGlobal rt (WorkerAPI.eval_key (ScopeData.id data)) scope true in
     vm_run rt (WorkerAPI.script_text (WorkerAPI.eval_key (ScopeData.id data))
                  (source options))) w0.


(** The call of a handler inside [callAddon]. *)
Definition handler_call (rt : Runtime) (options : ScopeData.t) (argv : AddonArgv.t)
    (f : AddonAction) : World -> Outcome Value * World :=
  fun w =>
    let (ctx, w0) := Scope options w in
    call_value (run_script rt ctx (f argv) w0).

(** [sync] as the specification words it: both commits are attempted, the
    user record first, whatever the first one does, and an error of either
    propagates. *)
Definition sync_attempting_both (rt : Runtime) (scope : ScopeObject) : Async Value :=
  fun w =>
    match user scope, channel scope with
    | Some lu, Some lc =>
        let (ru, w1) := _update rt lu w in
        let (rc, w2) := _update rt lc w1 in
        match ru, rc with
        | Rejected e, _ => (Rejected e, w2)
        | _, Rejected e => (Rejected e, w2)
        | _, _ => (Resolved VUndefined, w2)
        end
    | _, _ => WorkerAPI.sync rt scope w
    end.

Module Spec.

(** A line that holds one of the two words, [Script] or [MessagePort], after
    at least one character. *)
Fixpoint machinery_line (line : string) : bool :=
  Redact.dot_plus_word line ||
  match line with
  | "" => false
  | String _ t => machinery_line t
  end.


(** A call frame: a line that starts, after white space, with [at ]. *)
Fixpoint frame (line : string) : bool :=
  starts_with "at " line ||
  match line with
  | "" => false
  | String c t => is_white_space c && frame t
  end.

(** A frame of the machinery: a call frame that holds one of the two
    words. *)
Definition machinery_frame (line : string) : bool := frame line && machinery_line line.

(** The lines before the first frame of the machinery. *)
Fixpoint frames_before (lines : list string) : list string :=
  match lines with
  | [] => []
  | l :: r => if machinery_frame l then [] else l :: frames_before r
  end.

(** A rule as the specification words it: each matched path after a
    call-frame marker is replaced by the identifier. *)
Fixpoint replace_literal (path name : string) (skip : nat) (s : string) : string :=
  match s with
  | "" => ""
  | String c t =>
      match skip with
      | S k => replace_literal path name k t
      | O =>
          match Redact.rule_match path s with
          | Some (g1, m) => g1 +:+ name +:+ replace_literal path name (String.length m - 1) t
          | None => String c (replace_literal path name 0 t)
          end
      end
  end.

Definition rewrite_line (pathMapper : list Redact.Rule) (line : string) : string :=
  fold_left (fun l r => replace_literal (snd r) (fst r) 0 l) pathMapper line.

(** [formatError] as the specification words it: the stack without the
    lines from the first frame of the machinery on, each line rewritten. *)
Definition formatError (pathMapper : list Redact.Rule) (error : Value) : string :=
  match error with
  | VError _ _ stack =>
      join (String lf "") (map (rewrite_line pathMapper) (frames_before (split lf stack)))
  | _ => "Uncaught: " +:+ to_string error
  end.






Fixpoint no_char (c : ascii) (s : string) : bool :=
  match s with
  | "" => true
  | String a t => negb (Ascii.eqb a c) && no_char c t
  end.



End Spec.

(** [p] occurs in [s]. *)
Fixpoint occurs (p s : string) : bool :=
  String.prefix p s ||
  match s with
  | "" => false
  | String _ t => occurs p t
  end.

(** ** A concrete runtime and concrete sessions *)

Module Demo.

Definition stack_line : string := String lf "" +:+ "    at stdin:1:1".

(** The user sources this [vm] knows. *)
Definition code (source : string) : Script :=
  if String.eqb source "1+1" then Done (Some (VNum 2))
  else if String.eqb source "user.authority = 5; 1"
       then Step (SetUser "authority" (VNum 5)) (fun _ => Done (Some (VNum 1)))
  else if String.eqb source "user.authority = 5; channel.flag = 1"
       then Step (SetUser "authority" (VNum 5))
              (fun _ => Step (SetChannel "flag" (VNum 1)) (fun _ => Done (Some (VNum 1))))
  else if String.eqb source "user.name = 'x'; channel.flag = 1"
       then Step (SetUser "name" (VStr "x"))
              (fun _ => Step (SetChannel "flag" (VNum 1)) (fun _ => Done (Some (VNum 1))))
  else if String.eqb source "throw new Error('x')"
       then Raise (VError "Error" "x" ("Error: x" +:+ stack_line))
  else if String.eqb source "user.name = 'x'; await user._update(); throw 1"
       then Step (SetUser "name" (VStr "x"))
              (fun _ => Step (Commit UserRecord) (fun _ => Raise (VNum 1)))
  else Done None.

Definition render (param : list Value) : string :=
  String.concat " " (map to_string param).

Definition parent (p : string) : string :=
  join "/" (removelast (split "/" p)).

(** This [vm] parses every script but those that hold [1 +* 2]. *)
Definition syntax (script : string) : option Value :=
  if occurs "1 +* 2" script
  then Some (VError "SyntaxError" "Unexpected token '*'"
               "SyntaxError: Unexpected token '*'")
  else None.

Definition rt : Runtime :=
  {| main := fun _ _ => Normal VUndefined;
     parse_error := syntax;
     source_code := code;
     formatWithOptions := render;
     captureStack := fun name message => name +:+ ": " +:+ message;
     call_inherited := fun _ => Abrupt (VStr "inherited");
     findSourceMap := fun f =>
       if String.eqb f "/app/dist/worker.js" then Some "file:///app/src/worker.ts"
       else None;
     dirname := parent;
     sep := "/";
     addons := [("hello", fun _ => Done (Some (VStr "hi")));
                ("quiet", fun _ => Done None);
                ("boom", fun _ => Raise (VStr "bang"));
                ("grow", fun _ => Register "late" (fun _ => Done None) (Done None))];
     setupFiles := [];
     koishi_utils := "/app/node_modules/koishi-utils/dist/index.js";
     filename := "/app/dist/worker.js" |}.

Definition data : ScopeData.t :=
  {| ScopeData.id := "s1";
     ScopeData.user := Some [("name", VStr "a"); ("authority", VNum 1)];
     ScopeData.channel := Some [("flag", VNum 0)];
     ScopeData.userWritable := ["name"];
     ScopeData.channelWritable := ["flag"] |}.


Definition bare : ScopeData.t :=
  {| ScopeData.id := "s2";
     ScopeData.user := None;
     ScopeData.channel := None;
     ScopeData.userWritable := [];
     ScopeData.channelWritable := [] |}.

Definition started : World := startup rt empty_world.

Definition argv (name : string) (debug : bool) : AddonArgv.t :=
  {| AddonArgv.name := name; AddonArgv.args := [];
     AddonArgv.options := if debug then [("debug", VBool true)] else [] |}.

Definition options (source : string) (silent : bool) : EvalOptions :=
  {| silent := silent; source := source |}.

(** The scope of [data] in the started worker, and the world after some
    source ran with it. *)
Definition scope : ScopeObject := fst (Scope data started).

Definition after (source : string) : World :=
  snd (run_script rt scope (code source) (snd (Scope data started))).





End Demo.

(** ** Messages *)

(** The message of the error a refused commit raises. *)
Definition denial (k : Kind) (refused : list string) : string :=
  match k with
  | UserRecord => "cannot set user field: " +:+ join ", " refused
  | ChannelRecord => "cannot set group field: " +:+ join ", " refused
  end.

(** ** Startup *)

(** The value a list of assignments [o[k] = v], made in order, leaves at a
    key: that of the last assignment to it. *)
Definition last_set {V : Type} (k : string) (assignments : list (string * V)) : option V :=
  obj_get k (rev assignments).

(** The names a run of registrations adds to the names already known, each
    at its first registration. *)
Fixpoint first_registrations (known names : list string) : list string :=
  match names with
  | [] => []
  | n :: r =>
      if existsb (String.eqb n) known then first_registrations known r
      else n :: first_registrations (known ++ [n]) r
  end.

(** The path [start()] registers for a setup file. *)
Definition setup_path (rt : Runtime) (entry : string * string) : string :=
  match findSourceMap rt (snd entry) with
  | Some source0 => slice 7 source0
  | None => snd entry
  end.

(** The path [mapDirectory] registers for a file, if it has a source map. *)
Definition directory_path (rt : Runtime) (file : string) : option string :=
  match findSourceMap rt file with
  | Some source0 => Some (dirname rt (slice 7 source0) +:+ sep rt)
  | None => None
  end.

(** A runtime with setup files. *)
Module Setup.

Definition rt : Runtime :=
  {| main := main Demo.rt;
     parse_error := parse_error Demo.rt;
     source_code := source_code Demo.rt;
     formatWithOptions := formatWithOptions Demo.rt;
     captureStack := captureStack Demo.rt;
     call_inherited := call_inherited Demo.rt;
     findSourceMap := findSourceMap Demo.rt;
     dirname := dirname Demo.rt;
     sep := sep Demo.rt;
     addons := [("hello", fun _ => Done (Some (VStr "hi")));
                ("hello", fun _ => Done (Some (VStr "hello again")))];
     setupFiles := [("setup/", "/app/setup.js"); ("koishi/", "/app/dist/worker.js")];
     koishi_utils := koishi_utils Demo.rt;
     filename := filename Demo.rt |}.

End Setup.

(** ** plugin-status: the message counter of a bot *)

Module Status.

(** A JavaScript number of the counter: an integer, or [NaN]. *)
Inductive Num : Type :=
| Fin (z : Z)
| NaN.

Definition num_add (a b : Num) : Num :=
  match a, b with
  | Fin x, Fin y => Fin (x + y)
  | _, _ => NaN
  end.

(** [bot.counter = new Array(61).fill(0)], at connect. *)
Definition new_counter : list Num := repeat (Fin 0) 61.

(** [session.bot.counter[0] += 1], before each send; in an empty array the
    slot is [undefined] and becomes [NaN]. *)
Definition on_send (counter : list Num) : list Num :=
  match counter with
  | x :: r => num_add x (Fin 1) :: r
  | [] => [NaN]
  end.

(** [counter.unshift(0); counter.splice(-1, 1)], every second. *)
Definition on_tick (counter : list Num) : list Num :=
  removelast (Fin 0 :: counter).

(** [bot.counter.slice(1).reduce((prev, curr) => prev + curr, 0)]. *)
Definition rate (counter : list Num) : Num :=
  fold_left num_add (tl counter) (Fin 0).

(** What happens to a bot after connect: a message is sent, or a second
    ends. *)
Inductive Event : Type := Sent | Tick.

(** The counter after a history, the latest event first. *)
Fixpoint counter_after (history : list Event) : list Num :=
  match history with
  | [] => new_counter
  | Sent :: earlier => on_send (counter_after earlier)
  | Tick :: earlier => on_tick (counter_after earlier)
  end.

(** The messages sent during the [i]-th second before the current one, the
    current one being the 0-th. *)
Fixpoint sent_in (i : nat) (history : list Event) : Z :=
  match history with
  | [] => 0
  | Sent :: earlier => (if Nat.eqb i 0 then 1 else 0) + sent_in i earlier
  | Tick :: earlier =>
      match i with
      | O => 0
      | S j => sent_in j earlier
      end
  end.

(** The messages sent during the [n] seconds from the [i]-th on. *)
Fixpoint sent_during (i n : nat) (history : list Event) : Z :=
  match n with
  | O => 0
  | S m => sent_in i history + sent_during (S i) m history
  end.

End Status.

(** ** What running code with a scope preserves *)

Section Frame.

Variable rt : Runtime.

Lemma stable_refl w : stable w w.
Proof. unfold stable; repeat split; eauto. Qed.

Lemma stable_trans w1 w2 w3 : stable w1 w2 -> stable w2 w3 -> stable w1 w3.
Proof.
  intros (H1 & G1 & P1 & C1 & L1) (H2 & G2 & P2 & C2 & L2).
  unfold stable; repeat split; try congruence.
  intros l o Hl. destruct (H1 l o Hl) as (o1 & Hl1 & U1).
  destruct (H2 l o1 Hl1) as (o2 & Hl2 & U2). exists o2; split; congruence.
Qed.

Lemma field_set_stable record key v w :
  stable w (snd (field_set rt record key v w)).
Proof.
  unfold field_set. destruct record as [l|]; [|apply stable_refl].
  destruct (heap w !! l) as [o|] eqn:Hl; [|apply stable_refl].
  unfold stable; simpl; repeat split; auto.
  intros l' o' Hl'. destruct (decide (l = l')) as [->|Hne].
  - rewrite lookup_insert_eq. eexists; split; [reflexivity|]. simpl. congruence.
  - rewrite lookup_insert_ne by done. eauto.
Qed.

Lemma field_get_world record key w : snd (field_get rt record key w) = w.
Proof.
  unfold field_get. destruct record as [l|]; [|reflexivity].
  destruct (heap w !! l); reflexivity.
Qed.

Lemma call_main_requests c w :
  snd (call_main rt c w) = set_requests (requests w ++ [c]) w.
Proof. unfold call_main. destruct (main rt (requests w) c); reflexivity. Qed.

Lemma call_main_stable c w : stable w (snd (call_main rt c w)).
Proof. rewrite call_main_requests. unfold stable; simpl; repeat split; eauto. Qed.

Lemma run_update_world f diff w :
  snd (run_update rt f diff w) = w \/
  exists c, is_update c = true /\
    snd (run_update rt f diff w) = set_requests (requests w ++ [c]) w.
Proof.
  destruct f as [id W|id W]; unfold run_update; destruct (negb _);
    try (left; reflexivity);
    right; eexists; (split; [|unfold await, call_main; destruct (main rt _ _); reflexivity]);
    reflexivity.
Qed.

Lemma _update_stable l w : stable w (snd (_update rt l w)).
Proof.
  unfold _update. destruct (heap w !! l) as [o|] eqn:Hl; [|apply stable_refl].
  pose proof (run_update_world (update o) (_diff o) w) as Hw.
  destruct (run_update rt (update o) (_diff o) w) as [[v|e] w1]; simpl in Hw |- *.
  - assert (heap w1 = heap w /\ globals w1 = globals w /\ pathMapper w1 = pathMapper w /\
            response w1 = response w /\ logger w1 = logger w) as (Hh & Hg & Hp & Hr & Hlg).
    { destruct Hw as [->|(c & _ & ->)]; repeat split; reflexivity. }
    unfold stable; simpl. rewrite Hh. repeat split; auto.
    intros l' o' Hl'. destruct (decide (l = l')) as [->|Hne].
    + rewrite lookup_insert_eq. eexists; split; [reflexivity|]. simpl. congruence.
    + rewrite lookup_insert_ne by done. eauto.
  - destruct Hw as [->|(c & _ & ->)]; [apply stable_refl|].
    unfold stable; simpl; repeat split; eauto.
Qed.

Lemma perform_stable scope op w : stable w (snd (perform rt scope op w)).
Proof.
  destruct op; simpl.
  - apply field_set_stable.
  - apply field_set_stable.
  - rewrite field_get_world. apply stable_refl.
  - rewrite field_get_world. apply stable_refl.
  - destruct (record k scope); [apply _update_stable|apply stable_refl].
  - apply call_main_stable.
  - unfold scope_exec. destruct message; try apply stable_refl.
    apply call_main_stable.
  - apply stable_refl.
Qed.

Lemma perform_requests scope op w :
  is_commit op = false ->
  List.filter is_update (requests (snd (perform rt scope op w))) =
  List.filter is_update (requests w).
Proof.
  intros Hop. destruct op; try discriminate Hop; simpl.
  - unfold field_set. destruct (user scope) as [l|]; [|reflexivity].
    destruct (heap w !! l); reflexivity.
  - unfold field_set. destruct (channel scope) as [l|]; [|reflexivity].
    destruct (heap w !! l); reflexivity.
  - rewrite field_get_world. reflexivity.
  - rewrite field_get_world. reflexivity.
  - unfold scope_send. rewrite call_main_requests. simpl.
    rewrite List.filter_app. apply app_nil_r.
  - unfold scope_exec. destruct message; try reflexivity.
    rewrite call_main_requests. simpl. rewrite List.filter_app. apply app_nil_r.
  - reflexivity.
Qed.

(** Code that commits nothing itself posts no update request. *)
Lemma run_script_no_commit scope s :
  no_commit s ->
  forall w, List.filter is_update (requests (snd (run_script rt scope s w))) =
            List.filter is_update (requests w).
Proof.
  induction 1 as [v|e|op next Hop _ IH|name callback next _ IH]; intros w; simpl;
    try reflexivity.
  - pose proof (perform_requests scope op w Hop) as Hp.
    destruct (perform rt scope op w) as [r w']. simpl in Hp.
    rewrite IH. exact Hp.
  - rewrite IH. reflexivity.
Qed.

Lemma registerCommand_stable name callback w :
  stable w (registerCommand name callback w).
Proof. unfold stable; simpl; repeat split; eauto. Qed.

Lemma run_script_stable scope s : forall w, stable w (snd (run_script rt scope s w)).
Proof.
  induction s as [v|e|op next IH|name callback _ next IH]; intros w; simpl.
  - apply stable_refl.
  - apply stable_refl.
  - pose proof (perform_stable scope op w) as Hp.
    destruct (perform rt scope op w) as [r w']. simpl in Hp.
    eapply stable_trans; [exact Hp|apply IH].
  - eapply stable_trans; [apply registerCommand_stable|apply IH].
Qed.

Lemma _update_commandMap l w : commandMap (snd (_update rt l w)) = commandMap w.
Proof.
  unfold _update. destruct (heap w !! l) as [o|]; [|reflexivity].
  destruct (update o) as [id W|id W]; unfold run_update;
    destruct (negb _); try reflexivity;
    unfold await, call_main; destruct (main rt _ _); reflexivity.
Qed.

Lemma perform_commandMap scope op w :
  commandMap (snd (perform rt scope op w)) = commandMap w.
Proof.
  destruct op; simpl; try reflexivity.
  - unfold field_set. destruct (user scope) as [l|]; [|reflexivity].
    destruct (heap w !! l); reflexivity.
  - unfold field_set. destruct (channel scope) as [l|]; [|reflexivity].
    destruct (heap w !! l); reflexivity.
  - rewrite field_get_world. reflexivity.
  - rewrite field_get_world. reflexivity.
  - destruct (record k scope); [apply _update_commandMap|reflexivity].
  - unfold scope_send. rewrite call_main_requests. reflexivity.
  - unfold scope_exec. destruct message; try reflexivity.
    rewrite call_main_requests. reflexivity.
Qed.

Lemma run_script_commandMap scope s :
  no_register s -> forall w, commandMap (snd (run_script rt scope s w)) = commandMap w.
Proof.
  induction 1 as [v|e|op next _ IH]; intros w; simpl; try reflexivity.
  pose proof (perform_commandMap scope op w) as Hp.
  destruct (perform rt scope op w) as [r w']. simpl in Hp.
  rewrite IH. exact Hp.
Qed.

(** [Scope] only allocates: the records of the data, each with its update
    function. *)
Lemma Scope_world data w :
  let w' := snd (Scope data w) in
  requests w' = requests w /\ globals w' = globals w /\ commandMap w' = commandMap w /\
  pathMapper w' = pathMapper w /\ response w' = response w /\ logger w' = logger w.
Proof.
  unfold Scope. destruct (ScopeData.user data), (ScopeData.channel data);
    simpl; repeat split; reflexivity.
Qed.

Lemma Scope_records data w :
  let scope := fst (Scope data w) in
  let w' := snd (Scope data w) in
  session scope = ScopeData.id data /\
  (forall l, user scope = Some l ->
     exists o, heap w' !! l = Some o /\
       update o = UserUpdate (ScopeData.id data) (ScopeData.userWritable data)) /\
  (forall l, channel scope = Some l ->
     exists o, heap w' !! l = Some o /\
       update o = ChannelUpdate (ScopeData.id data) (ScopeData.channelWritable data)) /\
  (ScopeData.user data = None <-> user scope = None) /\
  (ScopeData.channel data = None <-> channel scope = None).
Proof.
  unfold Scope.
  destruct (ScopeData.user data) as [ru|], (ScopeData.channel data) as [rc|]; simpl;
    (split; [reflexivity|]); (split; [|split; [|split; split; congruence]]);
    intros l Hl; inversion Hl; subst; clear Hl.
  - set (lu := fresh (dom (heap w))).
    set (lc := fresh (dom (<[lu:=_]> (heap w)))).
    assert (lc <> lu) as Hne.
    { intros Heq. pose proof (is_fresh (dom (<[lu:={| target := ru; _diff := [];
        update := UserUpdate (ScopeData.id data) (ScopeData.userWritable data) |}]> (heap w)))) as Hf.
      fold lc in Hf. rewrite Heq in Hf. apply Hf. rewrite dom_insert_L. set_solver. }
    rewrite lookup_insert_ne by done. rewrite lookup_insert_eq. eauto.
  - rewrite lookup_insert_eq. eauto.
  - rewrite lookup_insert_eq. eauto.
  - rewrite lookup_insert_eq. eauto.
Qed.

End Frame.

(** ** Commits *)

Lemma difference_allowed (keys writable : list string) :
  Nat.eqb (length (difference keys writable)) 0 =
  forallb (fun k => existsb (String.eqb k) writable) keys.
Proof.
  induction keys as [|k r IH]; simpl; [reflexivity|].
  destruct (existsb (String.eqb k) writable); simpl; [exact IH|reflexivity].
Qed.

Lemma run_update_allowed rt f diff w :
  match f with
  | UserUpdate id W =>
      if allowed W diff
      then snd (run_update rt f diff w) = set_requests (requests w ++ [updateUser id diff]) w
      else exists e, instanceof_Error e = true /\ run_update rt f diff w = (Rejected e, w)
  | ChannelUpdate id W =>
      if allowed W diff
      then snd (run_update rt f diff w) = set_requests (requests w ++ [updateGroup id diff]) w
      else exists e, instanceof_Error e = true /\ run_update rt f diff w = (Rejected e, w)
  end.
Proof.
  destruct f as [id W|id W]; unfold run_update, allowed;
    rewrite difference_allowed;
    destruct (forallb _ (obj_keys diff)); simpl;
    try (eexists; split; [|reflexivity]; reflexivity);
    unfold await, call_main;
    destruct (main rt (requests w) _); reflexivity.
Qed.

(** C1. For a scope built from a ScopeData and whatever code ran with it:
    committing a record (user with [userWritable] and [updateUser], channel
    with [channelWritable] and [updateGroup]) whose pending changes all lie
    on the allow-list posts exactly one update request, with exactly those
    changes; with a change outside the allow-list the commit raises an error
    and posts no request. *)
Theorem commit_respects_allow_list (rt : Runtime) (data : ScopeData.t) (w : World)
    (s : Script) (k : Kind) (l : nat) (o : Observed) :
  let scope := fst (Scope data w) in
  let w1 := snd (run_script rt scope s (snd (Scope data w))) in
  record k scope = Some l ->
  heap w1 !! l = Some o ->
  if allowed (writable k data) (_diff o)
  then requests (snd (_update rt l w1)) =
         requests w1 ++ [update_request k (ScopeData.id data) (_diff o)]
  else exists e, instanceof_Error e = true /\
         fst (_update rt l w1) = Rejected e /\
         requests (snd (_update rt l w1)) = requests w1.
Proof.
  intros scope w1 Hrec Hl.
  destruct (Scope_records data w) as (_ & Hu & Hc & _).
  assert (update o = match k with
                     | UserRecord => UserUpdate (ScopeData.id data) (ScopeData.userWritable data)
                     | ChannelRecord =>
                         ChannelUpdate (ScopeData.id data) (ScopeData.channelWritable data)
                     end) as Hf.
  { destruct (run_script_stable rt scope s (snd (Scope data w))) as (Hh & _).
    destruct k; simpl in Hrec.
    - destruct (Hu l Hrec) as (o0 & Hl0 & Hu0).
      destruct (Hh l o0 Hl0) as (o' & Hl' & Hu'). fold w1 in Hl'. congruence.
    - destruct (Hc l Hrec) as (o0 & Hl0 & Hu0).
      destruct (Hh l o0 Hl0) as (o' & Hl' & Hu'). fold w1 in Hl'. congruence. }
  pose proof (run_update_allowed rt (update o) (_diff o) w1) as Ha.
  unfold _update. rewrite Hl. rewrite Hf in Ha |- *. clear Hf.
  destruct k; cbv iota beta in Ha; unfold writable, update_request;
    match goal with |- context [allowed ?W ?d] => destruct (allowed W d) end.
  - destruct (run_update rt _ (_diff o) w1) as [[v|e] w2]; cbn [snd] in Ha |- *;
      subst; reflexivity.
  - destruct Ha as (e & He & Hr). exists e. rewrite Hr. auto.
  - destruct (run_update rt _ (_diff o) w1) as [[v|e] w2]; cbn [snd] in Ha |- *;
      subst; reflexivity.
  - destruct Ha as (e & He & Hr). exists e. rewrite Hr. auto.
Qed.

Lemma commit_respects_allow_list_witness :
  requests (snd (_update Demo.rt 0%nat (Demo.after "user.name = 'x'; channel.flag = 1"))) =
    requests (Demo.after "user.name = 'x'; channel.flag = 1")
      ++ [updateUser "s1" [("name", VStr "x")]] /\
  exists e, instanceof_Error e = true /\
    fst (_update Demo.rt 0%nat (Demo.after "user.authority = 5; 1")) = Rejected e /\
    requests (snd (_update Demo.rt 0%nat (Demo.after "user.authority = 5; 1"))) =
      requests (Demo.after "user.authority = 5; 1").
Proof.
  split.
  - apply (commit_respects_allow_list Demo.rt Demo.data Demo.started
             (Demo.code "user.name = 'x'; channel.flag = 1") UserRecord 0%nat
             {| target := [("name", VStr "x"); ("authority", VNum 1)];
                _diff := [("name", VStr "x")];
                update := UserUpdate "s1" ["name"] |});
      vm_compute; reflexivity.
  - apply (commit_respects_allow_list Demo.rt Demo.data Demo.started
             (Demo.code "user.authority = 5; 1") UserRecord 0%nat
             {| target := [("name", VStr "a"); ("authority", VNum 5)];
                _diff := [("authority", VNum 5)];
                update := UserUpdate "s1" ["name"] |});
      vm_compute; reflexivity.
Defined.

(** ** sync *)

Lemma sync_unfold rt scope w :
  WorkerAPI.sync rt scope w =
  match (match user scope with
         | Some l => _update rt l
         | None => resolve VUndefined
         end) w with
  | (Resolved _, w1) =>
      match (match channel scope with
             | Some l => _update rt l
             | None => resolve VUndefined
             end) w1 with
      | (Resolved _, w2) => (Resolved VUndefined, w2)
      | (Rejected e, w2) => (Rejected e, w2)
      end
  | (Rejected e, w1) => (Rejected e, w1)
  end.
Proof.
  unfold WorkerAPI.sync, await.
  destruct (match user scope with Some l => _update rt l | None => resolve VUndefined end w)
    as [[v|e] w1]; [|reflexivity].
  destruct (match channel scope with Some l => _update rt l | None => resolve VUndefined end w1)
    as [[v'|e'] w2]; reflexivity.
Qed.

Lemma sync_commandMap rt scope w :
  commandMap (snd (WorkerAPI.sync rt scope w)) = commandMap w.
Proof.
  rewrite sync_unfold.
  assert (forall r w0, commandMap (snd ((match r with
                                         | Some l => _update rt l
                                         | None => resolve VUndefined
                                         end) w0)) = commandMap w0) as Hc.
  { intros [l|] w0; [apply _update_commandMap|reflexivity]. }
  pose proof (Hc (user scope) w) as H1.
  destruct (match user scope with Some l => _update rt l | None => resolve VUndefined end w)
    as [[v|e] w1]; [|exact H1].
  pose proof (Hc (channel scope) w1) as H2.
  destruct (match channel scope with Some l => _update rt l | None => resolve VUndefined end w1)
    as [[v'|e'] w2]; simpl in *; congruence.
Qed.

(** C3, as amended. With both records present, sync commits the user record
    first.  When that commit raises, sync raises the same error at once and
    ends in the world that commit left: the channel commit is not attempted
    and no [updateGroup] request is posted.  When it succeeds, the channel
    record is committed next and its outcome is the outcome of sync. *)
Theorem sync_user_then_channel (rt : Runtime) (scope : ScopeObject) (w : World)
    (lu lc : nat) (ou : Observed) (id : string) (W : list string) :
  user scope = Some lu ->
  channel scope = Some lc ->
  heap w !! lu = Some ou ->
  update ou = UserUpdate id W ->
  match _update rt lu w with
  | (Rejected e, w1) =>
      WorkerAPI.sync rt scope w = (Rejected e, w1) /\
      List.filter is_updateGroup (requests w1) = List.filter is_updateGroup (requests w)
  | (Resolved _, w1) =>
      WorkerAPI.sync rt scope w =
        match _update rt lc w1 with
        | (Resolved _, w2) => (Resolved VUndefined, w2)
        | (Rejected e, w2) => (Rejected e, w2)
        end
  end.
Proof.
  intros Hu Hc Hl Hf. rewrite sync_unfold, Hu, Hc.
  destruct (_update rt lu w) as [[v|e] w1] eqn:Hup; [reflexivity|].
  split; [reflexivity|].
  unfold _update in Hup. rewrite Hl, Hf in Hup. unfold run_update in Hup.
  destruct (negb _).
  - inversion Hup; reflexivity.
  - unfold await, call_main in Hup.
    destruct (main rt (requests w) _); inversion Hup; subst. simpl.
    rewrite List.filter_app. simpl. apply app_nil_r.
Qed.

Lemma sync_user_then_channel_witness :
  WorkerAPI.sync Demo.rt Demo.scope (Demo.after "user.authority = 5; channel.flag = 1") =
    (Rejected (TypeError Demo.rt "cannot set user field: authority"),
     Demo.after "user.authority = 5; channel.flag = 1").
Proof.
  pose proof (sync_user_then_channel Demo.rt Demo.scope
                (Demo.after "user.authority = 5; channel.flag = 1") 0%nat 1%nat
                {| target := [("name", VStr "a"); ("authority", VNum 5)];
                   _diff := [("authority", VNum 5)];
                   update := UserUpdate "s1" ["name"] |} "s1" ["name"]
                eq_refl eq_refl eq_refl eq_refl) as H.
  destruct (_update Demo.rt 0%nat (Demo.after "user.authority = 5; channel.flag = 1"))
    as [[v|e] w1] eqn:Hup.
  - vm_compute in Hup. discriminate Hup.
  - destruct H as (Hs & _). rewrite Hs. vm_compute in Hup. rewrite <- Hup.
    vm_compute. reflexivity.
Defined.

(** C3, as stated, fails: with a user change outside the allow-list and a
    channel change inside it, sync stops at the user commit, while attempting
    both commits would have posted the [updateGroup] request. *)
Lemma sync_attempts_both_counterexample :
  user Demo.scope = Some 0%nat /\ channel Demo.scope = Some 1%nat /\
  requests (snd (WorkerAPI.sync Demo.rt Demo.scope
                   (Demo.after "user.authority = 5; channel.flag = 1"))) = [] /\
  requests (snd (sync_attempting_both Demo.rt Demo.scope
                   (Demo.after "user.authority = 5; channel.flag = 1"))) =
    [updateGroup "s1" [("flag", VNum 1)]] /\
  WorkerAPI.sync Demo.rt Demo.scope (Demo.after "user.authority = 5; channel.flag = 1") <>
  sync_attempting_both Demo.rt Demo.scope (Demo.after "user.authority = 5; channel.flag = 1").
Proof.
  repeat split; try (vm_compute; reflexivity).
  intros H. apply (f_equal (fun r => requests (snd r))) in H.
  vm_compute in H. discriminate H.
Qed.

(** C10. A scope built from a ScopeData without a user record has no user
    record, and sync passes over it: nothing is raised for it and no
    [updateUser] request is posted; likewise for the channel record and
    [updateGroup].  With neither record, sync succeeds and leaves the world
    as it was. *)
Theorem sync_skips_absent_records (rt : Runtime) (data : ScopeData.t) (w : World)
    (s : Script) :
  let scope := fst (Scope data w) in
  let w1 := snd (run_script rt scope s (snd (Scope data w))) in
  let after := snd (WorkerAPI.sync rt scope w1) in
  match ScopeData.user data, ScopeData.channel data with
  | None, None =>
      user scope = None /\ channel scope = None /\
      WorkerAPI.sync rt scope w1 = (Resolved VUndefined, w1)
  | None, Some _ =>
      user scope = None /\
      (exists l, channel scope = Some l /\
         WorkerAPI.sync rt scope w1 = (let* _ := _update rt l in resolve VUndefined) w1) /\
      List.filter is_updateUser (requests after) = List.filter is_updateUser (requests w1)
  | Some _, None =>
      channel scope = None /\
      (exists l, user scope = Some l /\
         WorkerAPI.sync rt scope w1 = (let* _ := _update rt l in resolve VUndefined) w1) /\
      List.filter is_updateGroup (requests after) = List.filter is_updateGroup (requests w1)
  | Some _, Some _ => exists lu lc, user scope = Some lu /\ channel scope = Some lc
  end.
Proof.
  intros scope w1 after.
  destruct (Scope_records data w) as (_ & Hu & Hc & Hnu & Hnc).
  fold scope in Hu, Hc, Hnu, Hnc.
  pose proof (run_script_stable rt scope s (snd (Scope data w))) as (Hh & _).
  fold w1 in Hh.
  assert (forall l f d, heap w1 !! l = Some d -> update d = f ->
            requests (snd ((let* _ := _update rt l in resolve VUndefined) w1)) = requests w1 \/
            exists diff, requests (snd ((let* _ := _update rt l in resolve VUndefined) w1)) =
              (requests w1 ++ [match f with
                               | UserUpdate id _ => updateUser id diff
                               | ChannelUpdate id _ => updateGroup id diff
                               end])%list) as Hreq.
  { intros l f d Hl Hf. unfold await, _update. rewrite Hl, Hf.
    destruct f as [id W|id W]; unfold run_update; destruct (negb _);
      try (left; reflexivity);
      right; exists (_diff d); unfold await, call_main;
      destruct (main rt _ _); reflexivity. }
  destruct (ScopeData.user data) as [ru|] eqn:Eu, (ScopeData.channel data) as [rc|] eqn:Ec.
  - destruct (user scope) as [lu|] eqn:Hsu; [|destruct Hnu as [_ Hn]; discriminate (Hn eq_refl)].
    destruct (channel scope) as [lc|] eqn:Hsc; [|destruct Hnc as [_ Hn]; discriminate (Hn eq_refl)].
    eauto.
  - destruct Hnc as [Hn _]. specialize (Hn eq_refl).
    destruct (user scope) as [lu|] eqn:Hsu; [|destruct Hnu as [_ Hn']; discriminate (Hn' eq_refl)].
    split; [exact Hn|].
    assert (WorkerAPI.sync rt scope w1 = (let* _ := _update rt lu in resolve VUndefined) w1) as Hs.
    { rewrite sync_unfold, Hsu, Hn. unfold await, resolve.
      destruct (_update rt lu w1) as [[v|e] w2]; reflexivity. }
    split; [exists lu; split; [reflexivity|exact Hs]|].
    unfold after. rewrite Hs.
    destruct (Hu lu eq_refl) as (o0 & Hl0 & Hf0).
    destruct (Hh lu o0 Hl0) as (o' & Hl' & Hf'). rewrite Hf0 in Hf'.
    destruct (Hreq lu _ o' Hl' Hf') as [Hr|[diff Hr]]; rewrite Hr; [reflexivity|].
    rewrite List.filter_app. simpl. apply app_nil_r.
  - destruct Hnu as [Hn _]. specialize (Hn eq_refl).
    destruct (channel scope) as [lc|] eqn:Hsc; [|destruct Hnc as [_ Hn']; discriminate (Hn' eq_refl)].
    split; [exact Hn|].
    assert (WorkerAPI.sync rt scope w1 = (let* _ := _update rt lc in resolve VUndefined) w1) as Hs.
    { rewrite sync_unfold, Hsc, Hn. unfold await, resolve.
      destruct (_update rt lc w1) as [[v|e] w2]; reflexivity. }
    split; [exists lc; split; [reflexivity|exact Hs]|].
    unfold after. rewrite Hs.
    destruct (Hc lc eq_refl) as (o0 & Hl0 & Hf0).
    destruct (Hh lc o0 Hl0) as (o' & Hl' & Hf'). rewrite Hf0 in Hf'.
    destruct (Hreq lc _ o' Hl' Hf') as [Hr|[diff Hr]]; rewrite Hr; [reflexivity|].
    rewrite List.filter_app. simpl. apply app_nil_r.
  - destruct Hnu as [Hn _]. destruct Hnc as [Hn' _].
    specialize (Hn eq_refl). specialize (Hn' eq_refl).
    repeat split; auto. rewrite sync_unfold, Hn, Hn'. reflexivity.
Qed.

Example sync_without_records :
  WorkerAPI.sync Demo.rt (fst (Scope Demo.bare Demo.started))
    (snd (Scope Demo.bare Demo.started)) =
  (Resolved VUndefined, Demo.started).
Proof. vm_compute. reflexivity. Qed.

(** ** eval *)

Lemma append_cons c s t : String c s +:+ t = String c (s +:+ t).
Proof. reflexivity. Qed.

Lemma append_assoc (a b c : string) : (a +:+ b) +:+ c = a +:+ b +:+ c.
Proof.
  induction a as [|x a IH]; [reflexivity|].
  rewrite !append_cons, IH. reflexivity.
Qed.

Lemma length_append (a b : string) :
  String.length (a +:+ b) = (String.length a + String.length b)%nat.
Proof.
  induction a as [|x a IH]; [reflexivity|].
  rewrite append_cons. cbn [String.length]. rewrite IH. reflexivity.
Qed.

Section Reading.

Import Reader.

Lemma strip_prefix_append p : forall r, strip_prefix p (p +:+ r) = Some r.
Proof.
  induction p as [|a p IH]; intros r; [destruct r; reflexivity|].
  rewrite append_cons. cbn [strip_prefix]. rewrite Ascii.eqb_refl. apply IH.
Qed.

Lemma strip_suffix_append p : forall s, strip_suffix p (s +:+ p) = Some s.
Proof.
  induction s as [|c s IH].
  - change ("" +:+ p) with p. destruct p; cbn [strip_suffix]; rewrite String.eqb_refl;
      reflexivity.
  - rewrite append_cons. cbn [strip_suffix].
    assert (String.eqb (String c (s +:+ p)) p = false) as ->.
    { apply String.eqb_neq. intros H. apply (f_equal String.length) in H.
      cbn [String.length] in H. rewrite length_append in H. lia. }
    rewrite IH. reflexivity.
Qed.

Lemma read_literal_append k :
  plain_literal k = true ->
  forall r, read_literal (k +:+ String dquote r) = Some (k, r).
Proof.
  induction k as [|c k IH]; intros H r.
  - change ("" +:+ String dquote r) with (String dquote r).
    cbn [read_literal]. rewrite Ascii.eqb_refl. reflexivity.
  - cbn [plain_literal] in H. apply andb_true_iff in H as [Hc Hk].
    rewrite append_cons. cbn [read_literal]. rewrite Hc, (IH Hk).
    unfold literal_char in Hc. apply negb_true_iff in Hc.
    apply orb_false_iff in Hc as [Hc _]. apply orb_false_iff in Hc as [Hc _].
    rewrite Hc. reflexivity.
Qed.

Lemma plain_literal_append a b :
  plain_literal (a +:+ b) = plain_literal a && plain_literal b.
Proof.
  induction a as [|c a IH]; [reflexivity|].
  rewrite append_cons. cbn [plain_literal]. rewrite IH. apply andb_assoc.
Qed.

Lemma eval_key_plain id :
  plain_literal id = true -> plain_literal (WorkerAPI.eval_key id) = true.
Proof.
  intros H. unfold WorkerAPI.eval_key. rewrite plain_literal_append, H. reflexivity.
Qed.

Lemma script_text_parts key source :
  WorkerAPI.script_text key source =
  open_with +:+ key +:+ String dquote
    (open_delete +:+ key +:+ String dquote (close_delete +:+ source +:+ close_block)).
Proof. reflexivity. Qed.

(** The reader finds in the script of [eval] what the template puts there,
    when the key is a string that a string literal holds as it is. *)
Lemma read_script_text key source :
  plain_literal key = true ->
  read_script (WorkerAPI.script_text key source) =
  Some {| with_key := key; delete_key := key; body := source |}.
Proof.
  intros H. rewrite script_text_parts. unfold read_script.
  rewrite strip_prefix_append, (read_literal_append key H).
  rewrite strip_prefix_append, (read_literal_append key H).
  rewrite strip_prefix_append, strip_suffix_append. reflexivity.
Qed.

End Reading.

Lemma setGlobal_overwrite rt key scope w :
  setGlobal rt key scope true w =
  (Resolved tt, set_globals (<[key := scope]> (globals w)) w).
Proof. unfold setGlobal. destruct (globals w !! key); reflexivity. Qed.

Lemma await_setGlobal rt key scope {B : Type} (k : unit -> Async B) w :
  await (setGlobal rt key scope true) k w =
  k tt (set_globals (<[key := scope]> (globals w)) w).
Proof. unfold await. rewrite setGlobal_overwrite. reflexivity. Qed.

(** [vm.run] either raises before anything runs, or runs the source it
    reads from the script. *)
Lemma vm_run_outcome rt script w :
  (exists e, vm_run rt script w = (Rejected e, w)) \/
  (exists p scope, Reader.read_script script = Some p /\
     vm_run rt script w =
     block_value (run_script rt scope (source_code rt (Reader.body p))
                    (set_globals (delete (Reader.delete_key p) (globals w)) w))).
Proof.
  unfold vm_run. destruct (parse_error rt script) as [e|]; [eauto|].
  destruct (Reader.read_script script) as [p|]; [|eauto].
  destruct (globals w !! Reader.with_key p) as [scope|]; [|eauto].
  right. exists p, scope. split; reflexivity.
Qed.


Lemma eval_execution_unfold rt data options w :
  eval_execution rt data options w =
  vm_run rt (WorkerAPI.script_text (WorkerAPI.eval_key (ScopeData.id data)) (source options))
    (set_globals (<[WorkerAPI.eval_key (ScopeData.id data) := fst (Scope data w)]>
                    (globals (snd (Scope data w)))) (snd (Scope data w))).
Proof.
  unfold eval_execution. destruct (Scope data w) as [scope w0]. cbn [fst snd].
  rewrite await_setGlobal. reflexivity.
Qed.

Lemma eval_unfold rt data options w :
  WorkerAPI.eval rt data options w =
  eval_finish rt (fst (Scope data w)) options (eval_execution rt data options w).
Proof.
  unfold WorkerAPI.eval, eval_execution. destruct (Scope data w) as [scope w0]. simpl.
  rewrite !await_setGlobal.
  set (w1 := set_globals _ w0).
  unfold await at 1. unfold try_catch. unfold await at 1.
  destruct (vm_run rt _ w1) as [[result|e] w2]; simpl.
  - unfold await at 1.
    destruct (WorkerAPI.sync rt scope w2) as [[v|e] w3]; simpl.
    + destruct (Value_eqb result VUndefined || silent options); reflexivity.
    + reflexivity.
  - reflexivity.
Qed.

(** C2. When the execution of the source raises, eval returns the formatted
    error and ends in the world the execution left: sync is not called.  The
    error is formatted with the path rules of before the call, and when the
    source the [vm] reads from the script commits no record itself, the
    update requests posted to the main thread are those posted before the
    call; the source the [vm] reads is the given source when the session id
    is a string that the string literals of the script hold as it is. *)
Theorem eval_failure_returns_error_without_sync (rt : Runtime) (data : ScopeData.t)
    (options : EvalOptions) (w : World) (e : Value) (w' : World) :
  eval_execution rt data options w = (Rejected e, w') ->
  WorkerAPI.eval rt data options w = (Resolved (VStr (formatError (pathMapper w) e)), w') /\
  pathMapper w' = pathMapper w /\
  ((forall p,
      Reader.read_script
        (WorkerAPI.script_text (WorkerAPI.eval_key (ScopeData.id data)) (source options)) =
        Some p ->
      no_commit (source_code rt (Reader.body p))) ->
   List.filter is_update (requests w') = List.filter is_update (requests w)) /\
  (plain_literal (ScopeData.id data) = true ->
   no_commit (source_code rt (source options)) ->
   List.filter is_update (requests w') = List.filter is_update (requests w)).
Proof.
  intros Hx. rewrite eval_unfold, Hx.
  rewrite eval_execution_unfold in Hx.
  set (scope := fst (Scope data w)) in *.
  set (key := WorkerAPI.eval_key (ScopeData.id data)) in *.
  set (w0 := set_globals (<[key := scope]> (globals (snd (Scope data w)))) (snd (Scope data w)))
    in *.
  destruct (Scope_world data w) as (Hr0 & _ & _ & Hp0 & _).
  assert (pathMapper w0 = pathMapper w /\ requests w0 = requests w) as (Hpw & Hrw).
  { unfold w0. simpl. auto. }
  assert (pathMapper w' = pathMapper w /\
          ((forall p, Reader.read_script (WorkerAPI.script_text key (source options)) = Some p ->
                      no_commit (source_code rt (Reader.body p))) ->
           List.filter is_update (requests w') = List.filter is_update (requests w)))
    as (Hpm & Hreq).
  { destruct (vm_run_outcome rt (WorkerAPI.script_text key (source options)) w0)
      as [(e0 & Hv)|(p & sc & Hread & Hv)]; rewrite Hv in Hx.
    - inversion Hx; subst. split; [exact Hpw|]. intros _. rewrite Hrw. reflexivity.
    - set (w1 := set_globals (delete (Reader.delete_key p) (globals w0)) w0) in *.
      pose proof (run_script_stable rt sc (source_code rt (Reader.body p)) w1)
        as (_ & _ & Hp & _).
      pose proof (fun H => run_script_no_commit rt sc (source_code rt (Reader.body p)) H w1)
        as Hr.
      destruct (run_script rt sc (source_code rt (Reader.body p)) w1) as [[[v|]|e'] w2];
        simpl in Hx; inversion Hx; subst.
      simpl in Hr, Hp. split; [congruence|].
      intros Hn. rewrite (Hr (Hn p Hread)). unfold w1, w0. simpl. rewrite Hr0. reflexivity. }
  simpl. rewrite Hpm. split; [reflexivity|]. split; [reflexivity|].
  split; [exact Hreq|].
  intros Hid Hn. apply Hreq. intros p Hp.
  rewrite (read_script_text key (source options) (eval_key_plain _ Hid)) in Hp.
  inversion Hp; subst. exact Hn.
Qed.

Lemma eval_failure_returns_error_without_sync_witness :
  fst (WorkerAPI.eval Demo.rt Demo.data (Demo.options "throw new Error('x')" false)
         Demo.started) =
    Resolved (VStr ("Error: x" +:+ Demo.stack_line)) /\
  List.filter is_update
    (requests (snd (eval_execution Demo.rt Demo.data
                      (Demo.options "throw new Error('x')" false) Demo.started))) = [].
Proof.
  pose proof (eval_failure_returns_error_without_sync Demo.rt Demo.data
                (Demo.options "throw new Error('x')" false) Demo.started
                (VError "Error" "x" ("Error: x" +:+ Demo.stack_line))
                (snd (eval_execution Demo.rt Demo.data
                        (Demo.options "throw new Error('x')" false) Demo.started))) as H.
  destruct H as (He & _ & _ & Hr); [vm_compute; reflexivity|].
  rewrite He. split; [vm_compute; reflexivity|].
  rewrite Hr; [vm_compute; reflexivity|reflexivity|].
  change (no_commit (Raise (VError "Error" "x" ("Error: x" +:+ Demo.stack_line)))).
  constructor.
Defined.

(** A source that commits its user record and then throws: the request of
    that commit is the only one, eval adds none. *)
Example eval_failure_after_own_commit :
  fst (WorkerAPI.eval Demo.rt Demo.data
         (Demo.options "user.name = 'x'; await user._update(); throw 1" false)
         Demo.started) = Resolved (VStr "Uncaught: 1") /\
  requests (snd (WorkerAPI.eval Demo.rt Demo.data
                   (Demo.options "user.name = 'x'; await user._update(); throw 1" false)
                   Demo.started)) = [updateUser "s1" [("name", VStr "x")]].
Proof. split; vm_compute; reflexivity. Qed.

(** A source with a syntax error: [vm.run] raises before anything runs and
    eval returns the formatted SyntaxError. *)
Example eval_syntax_error :
  WorkerAPI.eval Demo.rt Demo.data (Demo.options "1 +* 2" false) Demo.started =
  (Resolved (VStr "SyntaxError: Unexpected token '*'"),
   set_globals (<["koishi-eval-context:s1" := Demo.scope]> (globals Demo.started))
     (snd (Scope Demo.data Demo.started))).
Proof. vm_compute. reflexivity. Qed.




(** C7, as amended. When the source executes without raising, sync is called
    on the scope of the invocation in the world the execution left.  If sync
    succeeds, eval returns nothing when the value is undefined or [silent]
    is set, and the value rendered by [formatResult] otherwise; if sync
    raises, eval returns the formatted error of sync. *)
Theorem eval_success_syncs_then_formats (rt : Runtime) (data : ScopeData.t)
    (options : EvalOptions) (w : World) (v : Value) (w1 : World) :
  eval_execution rt data options w = (Resolved v, w1) ->
  WorkerAPI.eval rt data options w =
    match WorkerAPI.sync rt (fst (Scope data w)) w1 with
    | (Resolved _, w2) =>
        (Resolved (if Value_eqb v VUndefined || silent options then VUndefined
                   else VStr (formatResult rt [v])), w2)
    | (Rejected e, w2) => (Resolved (VStr (formatError (pathMapper w2) e)), w2)
    end.
Proof. intros Hx. rewrite eval_unfold, Hx. reflexivity. Qed.

Lemma eval_success_syncs_then_formats_witness :
  fst (WorkerAPI.eval Demo.rt Demo.data (Demo.options "1+1" false) Demo.started) =
    Resolved (VStr "2") /\
  fst (WorkerAPI.eval Demo.rt Demo.data (Demo.options "1+1" true) Demo.started) =
    Resolved VUndefined.
Proof.
  split.
  - rewrite (eval_success_syncs_then_formats Demo.rt Demo.data (Demo.options "1+1" false)
               Demo.started (VNum 2)
               (snd (eval_execution Demo.rt Demo.data (Demo.options "1+1" false)
                       Demo.started))); vm_compute; reflexivity.
  - rewrite (eval_success_syncs_then_formats Demo.rt Demo.data (Demo.options "1+1" true)
               Demo.started (VNum 2)
               (snd (eval_execution Demo.rt Demo.data (Demo.options "1+1" true)
                       Demo.started))); vm_compute; reflexivity.
Defined.

(** C7, as stated, fails: a source that assigns a field outside the
    allow-list and ends with the value 1 executes without raising, yet eval
    returns the error of the refused commit, not the rendered value. *)
Lemma eval_success_counterexample :
  fst (eval_execution Demo.rt Demo.data (Demo.options "user.authority = 5; 1" false)
         Demo.started) = Resolved (VNum 1) /\
  formatResult Demo.rt [VNum 1] = "1" /\
  fst (WorkerAPI.eval Demo.rt Demo.data (Demo.options "user.authority = 5; 1" false)
         Demo.started) =
    Resolved (VStr "TypeError: cannot set user field: authority") /\
  fst (WorkerAPI.eval Demo.rt Demo.data (Demo.options "user.authority = 5; 1" false)
         Demo.started) <>
    Resolved (VStr (formatResult Demo.rt [VNum 1])).
Proof.
  repeat split; try (vm_compute; reflexivity).
  vm_compute. discriminate.
Qed.

(** ** callAddon *)

Lemma callAddon_unfold rt options argv w :
  WorkerAPI.callAddon rt options argv w =
  let ctx := fst (Scope options w) in
  let w0 := snd (Scope options w) in
  match obj_member (AddonArgv.name argv) (commandMap w) with
  | Own f =>
      match handler_call rt options argv f w with
      | (Resolved result, w1) =>
          match WorkerAPI.sync rt ctx w1 with
          | (Resolved _, w2) => (Resolved result, w2)
          | (Rejected e, w2) => addon_caught argv e w2
          end
      | (Rejected e, w1) => addon_caught argv e w1
      end
  | Inherited k =>
      match call_inherited rt k with
      | Normal result =>
          match WorkerAPI.sync rt ctx w0 with
          | (Resolved _, w2) => (Resolved result, w2)
          | (Rejected e, w2) => addon_caught argv e w2
          end
      | Abrupt e => addon_caught argv e w0
      end
  | Missing => addon_caught argv (TypeError rt "callback is not a function") w0
  end.
Proof.
  unfold WorkerAPI.callAddon, handler_call, try_catch, addon_caught.
  destruct (Scope options w) as [ctx w0]. simpl.
  unfold logger_warn, format_error.
  destruct (truthy (obj_read "debug" (AddonArgv.options argv)));
    destruct (obj_member (AddonArgv.name argv) (commandMap w)) as [f|k|]; simpl;
    try reflexivity;
    unfold await at 1, of_completion;
    try (destruct (call_value (run_script rt ctx (f argv) w0)) as [[result|e] w1]);
    try (destruct (call_inherited rt k) as [result|e]; simpl);
    try reflexivity;
    unfold await;
    match goal with
    | |- context [WorkerAPI.sync rt ctx ?x] =>
        destruct (WorkerAPI.sync rt ctx x) as [[v|e] w2]; reflexivity
    end.
Qed.

(** C4. When the handler of an addon raises, callAddon returns the formatted
    error if [argv.options.debug] is set; if it is not, the error goes to the
    log and callAddon returns nothing. *)
Theorem callAddon_handler_error (rt : Runtime) (options : ScopeData.t) (argv : AddonArgv.t)
    (w : World) (f : AddonAction) (e : Value) (w' : World) :
  obj_member (AddonArgv.name argv) (commandMap w) = Own f ->
  handler_call rt options argv f w = (Rejected e, w') ->
  WorkerAPI.callAddon rt options argv w =
    if truthy (obj_read "debug" (AddonArgv.options argv))
    then (Resolved (VStr (formatError (pathMapper w') e)), w')
    else (Resolved VUndefined, set_logger (logger w' ++ [LogWarn e]) w').
Proof.
  intros Hm Hc. rewrite callAddon_unfold. cbv zeta. rewrite Hm, Hc. reflexivity.
Qed.

Lemma callAddon_handler_error_witness :
  fst (WorkerAPI.callAddon Demo.rt Demo.data (Demo.argv "boom" true) Demo.started) =
    Resolved (VStr "Uncaught: bang") /\
  fst (WorkerAPI.callAddon Demo.rt Demo.data (Demo.argv "boom" false) Demo.started) =
    Resolved VUndefined.
Proof.
  split.
  - rewrite (callAddon_handler_error Demo.rt Demo.data (Demo.argv "boom" true) Demo.started
               (fun _ => Raise (VStr "bang")) (VStr "bang") (snd (Scope Demo.data Demo.started)));
      vm_compute; reflexivity.
  - rewrite (callAddon_handler_error Demo.rt Demo.data (Demo.argv "boom" false) Demo.started
               (fun _ => Raise (VStr "bang")) (VStr "bang") (snd (Scope Demo.data Demo.started)));
      vm_compute; reflexivity.
Defined.

(** C5, as amended. When the lookup of [argv.name] in the registry gives
    nothing, no handler runs and nothing is rejected: the call of the missing
    handler raises a TypeError inside the try block, which callAddon treats
    as an error of a handler (formatted and returned when [debug] is set,
    logged with nothing returned otherwise); no request is posted and the
    registry stays as it was. *)
Theorem callAddon_missing_handler (rt : Runtime) (options : ScopeData.t)
    (argv : AddonArgv.t) (w : World) :
  obj_member (AddonArgv.name argv) (commandMap w) = Missing ->
  let w0 := snd (Scope options w) in
  let e := TypeError rt "callback is not a function" in
  WorkerAPI.callAddon rt options argv w =
    (if truthy (obj_read "debug" (AddonArgv.options argv))
     then (Resolved (VStr (formatError (pathMapper w) e)), w0)
     else (Resolved VUndefined, set_logger (logger w ++ [LogWarn e]) w0)) /\
  requests (snd (WorkerAPI.callAddon rt options argv w)) = requests w /\
  commandMap (snd (WorkerAPI.callAddon rt options argv w)) = commandMap w.
Proof.
  intros Hm w0 e. rewrite callAddon_unfold. cbv zeta. rewrite Hm.
  destruct (Scope_world options w) as (Hr & _ & Hc & Hp & _ & Hl). fold w0 in Hr, Hc, Hp, Hl.
  unfold addon_caught. fold w0 e. rewrite Hp, Hl.
  destruct (truthy _); simpl; auto.
Qed.

Lemma callAddon_missing_handler_witness :
  fst (WorkerAPI.callAddon Demo.rt Demo.data (Demo.argv "nope" true) Demo.started) =
    Resolved (VStr "TypeError: callback is not a function").
Proof.
  destruct (callAddon_missing_handler Demo.rt Demo.data (Demo.argv "nope" true) Demo.started)
    as (H & _); [vm_compute; reflexivity|].
  rewrite H. vm_compute. reflexivity.
Defined.

(** C5, as stated, fails: called with a name that was never registered and
    without [debug], callAddon is not rejected; it resolves with nothing,
    which is also what it gives for a registered handler that returns
    nothing. *)
Lemma callAddon_missing_handler_counterexample :
  WorkerAPI.start Demo.started = Some ["hello"; "quiet"; "boom"; "grow"] /\
  obj_get "nope" (commandMap Demo.started) = None /\
  fst (WorkerAPI.callAddon Demo.rt Demo.data (Demo.argv "nope" false) Demo.started) =
    Resolved VUndefined /\
  fst (WorkerAPI.callAddon Demo.rt Demo.data (Demo.argv "quiet" false) Demo.started) =
    Resolved VUndefined /\
  ~ exists e,
      fst (WorkerAPI.callAddon Demo.rt Demo.data (Demo.argv "nope" false) Demo.started) =
        Rejected e.
Proof.
  repeat split; try (vm_compute; reflexivity).
  intros [e He]. vm_compute in He. discriminate He.
Qed.

(** ** The registry *)

Lemma obj_get_set {V : Type} (k n : string) (v : V) (o : list (string * V)) :
  obj_get n (obj_set k v o) = if String.eqb n k then Some v else obj_get n o.
Proof.
  induction o as [|[k' v'] r IH]; simpl.
  - destruct (String.eqb n k); reflexivity.
  - destruct (String.eqb_spec k k') as [->|Hk]; simpl.
    + destruct (String.eqb n k'); reflexivity.
    + rewrite IH. destruct (String.eqb_spec n k') as [->|Hn].
      * destruct (String.eqb_spec k' k) as [->|]; [contradiction|reflexivity].
      * reflexivity.
Qed.

(** C8, as amended. The registry is written by register calls and by
    nothing else in the worker: sync never writes it, and code that
    registers nothing leaves it as it was.  It is never frozen: a register
    call made at any time, after startup too, raises nothing, sets the entry
    of that name and leaves the other entries and the command list of
    [start()] as they were; that list is the names registered when startup
    ended. *)
Theorem registry_written_by_register_only (rt : Runtime) (name : string)
    (callback : AddonAction) (w : World) (scope : ScopeObject) (s : Script) :
  no_register s ->
  (forall n, obj_get n (commandMap (registerCommand name callback w)) =
             if String.eqb n name then Some callback else obj_get n (commandMap w)) /\
  WorkerAPI.start (registerCommand name callback w) = WorkerAPI.start w /\
  run_script rt scope (Register name callback s) w =
    run_script rt scope s (registerCommand name callback w) /\
  commandMap (snd (WorkerAPI.sync rt scope w)) = commandMap w /\
  commandMap (snd (run_script rt scope s w)) = commandMap w /\
  WorkerAPI.start (startup rt w) = Some (obj_keys (commandMap (startup rt w))).
Proof.
  intros Hs.
  split; [intros n; apply obj_get_set|].
  split; [reflexivity|].
  split; [reflexivity|].
  split; [apply sync_commandMap|].
  split; [apply run_script_commandMap; exact Hs|].
  unfold startup, WorkerAPI.start.
  set (w1 := prepare rt w).
  assert (forall i f x, response (mapDirectory rt i f x) = response x /\
                        commandMap (mapDirectory rt i f x) = commandMap x) as Hm.
  { intros i f x. unfold mapDirectory. destruct (findSourceMap rt f); split; reflexivity. }
  assert (forall files x, response (fold_left (map_setupFile rt) files x) = response x /\
                          commandMap (fold_left (map_setupFile rt) files x) = commandMap x) as Hf.
  { induction files as [|a r IH]; intros x; simpl; [split; reflexivity|].
    destruct (IH (map_setupFile rt x a)) as (H1 & H2). rewrite H1, H2. split; reflexivity. }
  destruct (Hf (setupFiles rt)
              (mapDirectory rt "koishi/" (filename rt)
                 (mapDirectory rt "koishi/utils/" (koishi_utils rt)
                    (set_response (Some (obj_keys (commandMap w1))) w1)))) as (H1 & H2).
  rewrite H1, H2.
  destruct (Hm "koishi/" (filename rt)
              (mapDirectory rt "koishi/utils/" (koishi_utils rt)
                 (set_response (Some (obj_keys (commandMap w1))) w1))) as (H3 & H4).
  rewrite H3, H4.
  destruct (Hm "koishi/utils/" (koishi_utils rt)
              (set_response (Some (obj_keys (commandMap w1))) w1)) as (H5 & H6).
  rewrite H5, H6. reflexivity.
Qed.

Lemma registry_written_by_register_only_witness :
  obj_keys (commandMap (snd (run_script Demo.rt Demo.scope
                               (Register "late" (fun _ => Done None) (Done None))
                               Demo.started))) =
    ["hello"; "quiet"; "boom"; "grow"; "late"].
Proof.
  destruct (registry_written_by_register_only Demo.rt "late" (fun _ => Done None)
              Demo.started Demo.scope (Done None) (nr_done None)) as (_ & _ & H & _).
  rewrite H. vm_compute. reflexivity.
Defined.

(** C8, as stated, fails: after startup has ended, a call of the addon
    [grow], whose handler registers a command, succeeds silently and leaves
    a registry with one more entry, which the next lookup finds, while
    [start()] still lists the four names of startup. *)
Lemma registry_frozen_counterexample :
  WorkerAPI.start Demo.started = Some ["hello"; "quiet"; "boom"; "grow"] /\
  obj_keys (commandMap Demo.started) = ["hello"; "quiet"; "boom"; "grow"] /\
  fst (WorkerAPI.callAddon Demo.rt Demo.data (Demo.argv "grow" false) Demo.started) =
    Resolved VUndefined /\
  logger (snd (WorkerAPI.callAddon Demo.rt Demo.data (Demo.argv "grow" false) Demo.started)) =
    logger Demo.started /\
  obj_keys (commandMap (snd (WorkerAPI.callAddon Demo.rt Demo.data (Demo.argv "grow" false)
                               Demo.started))) =
    ["hello"; "quiet"; "boom"; "grow"; "late"] /\
  WorkerAPI.start (snd (WorkerAPI.callAddon Demo.rt Demo.data (Demo.argv "grow" false)
                          Demo.started)) =
    Some ["hello"; "quiet"; "boom"; "grow"] /\
  commandMap (snd (WorkerAPI.callAddon Demo.rt Demo.data (Demo.argv "grow" false)
                     Demo.started)) <> commandMap Demo.started.
Proof.
  repeat split; try (vm_compute; reflexivity).
  intros H. apply (f_equal obj_keys) in H. vm_compute in H. discriminate H.
Qed.

(** ** formatError *)

Section Lines.

Import Redact Spec.



Lemma split_nonempty t : exists h r, split lf t = h :: r.
Proof.
  induction t as [|c t (h & r & IH)]; simpl; [eauto|].
  destruct (Ascii.eqb c lf); [eauto|]. rewrite IH. eauto.
Qed.

Lemma split_cons c t h r :
  split lf t = h :: r ->
  split lf (String c t) = if Ascii.eqb c lf then "" :: h :: r else String c h :: r.
Proof. intros H. simpl. rewrite H. reflexivity. Qed.

Lemma split_cases c t :
  exists h r, split lf t = h :: r /\
    ((c = lf /\ split lf (String c t) = "" :: h :: r) \/
     (c <> lf /\ split lf (String c t) = String c h :: r)).
Proof.
  destruct (split_nonempty t) as (h & r & Ht). exists h, r. split; [exact Ht|].
  rewrite (split_cons c t h r Ht).
  destruct (Ascii.eqb_spec c lf); auto.
Qed.







Lemma frame_match_cons c t :
  frame_match (String c t) = dot_plus_word (String c t) || (is_white_space c && frame_match t).
Proof. reflexivity. Qed.




Lemma join_cons_line c h L :
  join (String lf "") (String c h :: L) = String c (join (String lf "") (h :: L)).
Proof. unfold join. destruct L; reflexivity. Qed.

Lemma join_empty_line L :
  join (String lf "") ("" :: L) =
  match L with [] => "" | _ => String lf (join (String lf "") L) end.
Proof. unfold join. destruct L; reflexivity. Qed.



End Lines.

Section Rules.

Import Redact Spec.

Lemma substitution_plain g1 m b a name :
  no_char "$" name = true -> substitution g1 m b a name = name.
Proof.
  induction name as [|c name IH]; intros Hn; [reflexivity|].
  simpl in Hn. apply andb_true_iff in Hn as [Hc Hn].
  specialize (IH Hn).
  destruct c as [[] [] [] [] [] [] [] []];
    try discriminate Hc; cbn [substitution]; rewrite IH; reflexivity.
Qed.

(** With an identifier without dollar sign, ['$1' + name] stands for the
    marker followed by the identifier. *)
Lemma substitution_identifier g1 m b a name :
  no_char "$" name = true -> substitution g1 m b a ("$1" +:+ name) = g1 +:+ name.
Proof.
  intros Hn. change ("$1" +:+ name) with (String "$" (String "1" name)).
  cbn [substitution]. rewrite (substitution_plain g1 m b a name Hn). reflexivity.
Qed.

Lemma replace_from_literal path name :
  no_char "$" name = true ->
  forall s skip before,
    replace_from path name skip before s = replace_literal path name skip s.
Proof.
  intros Hn. induction s as [|c t IH]; intros skip before; [reflexivity|].
  cbn [replace_from replace_literal].
  destruct skip as [|k]; [|apply IH].
  destruct (rule_match path (String c t)) as [[g1 m]|].
  - rewrite (substitution_identifier _ _ _ _ name Hn), IH.
    rewrite append_assoc. reflexivity.
  - rewrite IH. reflexivity.
Qed.


End Rules.






(** ** What sync leaves in place *)

Section Isolation.

Variable rt : Runtime.

Lemma sync_stable scope w : stable w (snd (WorkerAPI.sync rt scope w)).
Proof.
  rewrite sync_unfold.
  assert (forall r w0, stable w0 (snd ((match r with
                                        | Some l => _update rt l
                                        | None => resolve VUndefined
                                        end) w0))) as Hc.
  { intros [l|] w0; [apply _update_stable|apply stable_refl]. }
  pose proof (Hc (user scope) w) as H1.
  destruct (match user scope with Some l => _update rt l | None => resolve VUndefined end w)
    as [[v|e] w1]; simpl in *; [|exact H1].
  pose proof (Hc (channel scope) w1) as H2.
  destruct (match channel scope with Some l => _update rt l | None => resolve VUndefined end w1)
    as [[v'|e'] w2]; simpl in *; eapply stable_trans; eauto.
Qed.

End Isolation.

(** ** More on commits, handlers and the effects of a scope *)

(** X6. A refused commit names what it refuses: for a record of a scope
    built from a ScopeData, whatever code ran with it, a commit with a
    change outside the allow-list raises the TypeError whose message is
    [cannot set user field: ] (for the channel record, [cannot set group
    field: ]) followed by the changed fields that are not on the list, in
    the order in which the pending changes list them, separated by a comma
    and a space.  This is for changed fields whose names are listed in the
    order of their first assignment: no array index, no [__proto__]. *)
Theorem refused_commit_names_fields (rt : Runtime) (data : ScopeData.t) (w : World)
    (s : Script) (k : Kind) (l : nat) (o : Observed) :
  let scope := fst (Scope data w) in
  let w1 := snd (run_script rt scope s (snd (Scope data w))) in
  record k scope = Some l ->
  heap w1 !! l = Some o ->
  forallb plain_name (obj_keys (_diff o)) = true ->
  allowed (writable k data) (_diff o) = false ->
  _update rt l w1 =
    (Rejected (TypeError rt (denial k (difference (obj_keys (_diff o)) (writable k data)))),
     w1).
Proof.
  intros scope w1 Hrec Hl _ Hna.
  destruct (Scope_records data w) as (_ & Hu & Hc & _).
  destruct (run_script_stable rt scope s (snd (Scope data w))) as (Hh & _).
  fold w1 in Hh. unfold _update. rewrite Hl.
  unfold allowed in Hna. rewrite <- difference_allowed in Hna.
  destruct k; simpl in Hrec.
  - destruct (Hu l Hrec) as (o0 & Hl0 & Hu0).
    destruct (Hh l o0 Hl0) as (o' & Hl' & Hu').
    assert (update o = UserUpdate (ScopeData.id data) (ScopeData.userWritable data)) as Hf
      by congruence.
    rewrite Hf. unfold run_update. simpl in Hna. rewrite Hna. reflexivity.
  - destruct (Hc l Hrec) as (o0 & Hl0 & Hu0).
    destruct (Hh l o0 Hl0) as (o' & Hl' & Hu').
    assert (update o = ChannelUpdate (ScopeData.id data) (ScopeData.channelWritable data))
      as Hf by congruence.
    rewrite Hf. unfold run_update. simpl in Hna. rewrite Hna. reflexivity.
Qed.

Lemma refused_commit_names_fields_witness :
  fst (_update Demo.rt 0%nat (Demo.after "user.authority = 5; 1")) =
  Rejected (VError "TypeError" "cannot set user field: authority"
              "TypeError: cannot set user field: authority").
Proof.
  unfold Demo.after, Demo.scope.
  rewrite (refused_commit_names_fields Demo.rt Demo.data Demo.started
             (Demo.code "user.authority = 5; 1") UserRecord 0%nat
             {| target := [("name", VStr "a"); ("authority", VNum 5)];
                _diff := [("authority", VNum 5)];
                update := UserUpdate "s1" ["name"] |});
    vm_compute; reflexivity.
Defined.

(** X7. When the handler of an addon returns, callAddon calls sync on the
    scope it gave the handler and then returns the handler's value; when
    that sync raises, the value of the handler is dropped and the error is
    treated as an error of the handler (formatted and returned with
    [debug], logged with nothing returned without). *)
Theorem callAddon_success_syncs_then_returns (rt : Runtime) (options : ScopeData.t)
    (argv : AddonArgv.t) (w : World) (f : AddonAction) (v : Value) (w1 : World) :
  obj_member (AddonArgv.name argv) (commandMap w) = Own f ->
  handler_call rt options argv f w = (Resolved v, w1) ->
  WorkerAPI.callAddon rt options argv w =
    match WorkerAPI.sync rt (fst (Scope options w)) w1 with
    | (Resolved _, w2) => (Resolved v, w2)
    | (Rejected e, w2) =>
        if truthy (obj_read "debug" (AddonArgv.options argv))
        then (Resolved (VStr (formatError (pathMapper w) e)), w2)
        else (Resolved VUndefined, set_logger (logger w2 ++ [LogWarn e]) w2)
    end.
Proof.
  intros Hm Hc. rewrite callAddon_unfold. cbv zeta. rewrite Hm, Hc.
  pose proof (sync_stable rt (fst (Scope options w)) w1) as (_ & _ & Hp & _).
  destruct (WorkerAPI.sync rt (fst (Scope options w)) w1) as [[v'|e] w2]; [reflexivity|].
  unfold addon_caught. simpl in Hp. rewrite Hp.
  assert (pathMapper w1 = pathMapper w) as Hp1.
  { unfold handler_call in Hc. destruct (Scope_world options w) as (_ & _ & _ & Hp0 & _).
    destruct (Scope options w) as [ctx w0]. simpl in *.
    pose proof (run_script_stable rt ctx (f argv) w0) as (_ & _ & Hp2 & _).
    destruct (run_script rt ctx (f argv) w0) as [[[x|]|e'] w']; simpl in Hc;
      inversion Hc; subst; simpl in Hp2; congruence. }
  rewrite Hp1. reflexivity.
Qed.

Lemma callAddon_success_syncs_then_returns_witness :
  WorkerAPI.callAddon Demo.rt Demo.data (Demo.argv "hello" false) Demo.started =
  (Resolved (VStr "hi"),
   snd (WorkerAPI.sync Demo.rt Demo.scope (snd (Scope Demo.data Demo.started)))).
Proof.
  rewrite (callAddon_success_syncs_then_returns Demo.rt Demo.data (Demo.argv "hello" false)
             Demo.started (fun _ => Done (Some (VStr "hi"))) (VStr "hi")
             (snd (Scope Demo.data Demo.started)));
    vm_compute; reflexivity.
Defined.

(** X8. The effects of a scope.  [exec] with a message that is not a string
    raises a TypeError to the calling code and posts nothing; with a string
    it posts exactly one execute request, naming the session, and the
    calling code goes on with the reply of the main thread.  [send] posts
    exactly one send request whose content is the arguments rendered by
    [formatResult]. *)
Theorem scope_exec_and_send (rt : Runtime) (scope : ScopeObject) (w : World)
    (next : Completion -> Script) (message : Value) (param : list Value) :
  run_script rt scope (Step (Exec message) next) w =
    match message with
    | VStr m =>
        run_script rt scope (next (main rt (requests w) (execute (session scope) m)))
          (set_requests (requests w ++ [execute (session scope) m]) w)
    | _ =>
        run_script rt scope
          (next (Abrupt (TypeError rt ("The " +:+ dq +:+ "message" +:+ dq
                                         +:+ " argument must be of type string")))) w
    end /\
  run_script rt scope (Step (Send param) next) w =
    run_script rt scope
      (next (main rt (requests w) (send (session scope) (formatResult rt param))))
      (set_requests (requests w ++ [send (session scope) (formatResult rt param)]) w).
Proof.
  split.
  - cbn [run_script perform]. unfold scope_exec.
    destruct message; try reflexivity.
    unfold call_main. destruct (main rt (requests w) _); reflexivity.
  - cbn [run_script perform]. unfold scope_send, call_main.
    destruct (main rt (requests w) _); reflexivity.
Qed.

(** X19. A script that does not parse.  When the [vm] cannot parse the
    script eval builds (a syntax error in the source), nothing of the script
    runs: eval returns the formatted SyntaxError, sync is not called, no
    request is posted and no record is changed, and the handle eval
    installed for the session is still installed when eval has returned. *)
Theorem eval_unparsed_script_keeps_handle (rt : Runtime) (data : ScopeData.t)
    (options : EvalOptions) (w : World) (e : Value) :
  let key := WorkerAPI.eval_key (ScopeData.id data) in
  let scope := fst (Scope data w) in
  let w0 := snd (Scope data w) in
  parse_error rt (WorkerAPI.script_text key (source options)) = Some e ->
  WorkerAPI.eval rt data options w =
    (Resolved (VStr (formatError (pathMapper w) e)),
     set_globals (<[key := scope]> (globals w0)) w0) /\
  globals (snd (WorkerAPI.eval rt data options w)) !! key = Some scope /\
  requests (snd (WorkerAPI.eval rt data options w)) = requests w /\
  heap (snd (WorkerAPI.eval rt data options w)) = heap w0.
Proof.
  intros key scope w0 Hp.
  destruct (Scope_world data w) as (Hr & _ & _ & Hpm & _). fold w0 in Hr, Hpm.
  assert (WorkerAPI.eval rt data options w =
          (Resolved (VStr (formatError (pathMapper w) e)),
           set_globals (<[key := scope]> (globals w0)) w0)) as He.
  { rewrite eval_unfold, eval_execution_unfold. fold key scope w0.
    unfold vm_run. rewrite Hp. cbn [eval_finish pathMapper set_globals].
    rewrite Hpm. reflexivity. }
  rewrite He. cbn [snd globals requests heap set_globals].
  split; [reflexivity|]. split; [apply lookup_insert_eq|]. split; [exact Hr|reflexivity].
Qed.

Lemma eval_unparsed_script_keeps_handle_witness :
  fst (WorkerAPI.eval Demo.rt Demo.data (Demo.options "1 +* 2" false) Demo.started) =
    Resolved (VStr "SyntaxError: Unexpected token '*'") /\
  requests (snd (WorkerAPI.eval Demo.rt Demo.data (Demo.options "1 +* 2" false)
                   Demo.started)) = [].
Proof.
  destruct (eval_unparsed_script_keeps_handle Demo.rt Demo.data
              (Demo.options "1 +* 2" false) Demo.started
              (VError "SyntaxError" "Unexpected token '*'"
                 "SyntaxError: Unexpected token '*'")) as (He & _ & Hr & _);
    [vm_compute; reflexivity|].
  rewrite Hr. rewrite He. split; vm_compute; reflexivity.
Defined.

(** ** More on formatError *)

Section Cut.

Import Redact.

Lemma prefix_append w : forall t r, String.prefix w t = true -> String.prefix w (t +:+ r) = true.
Proof.
  induction w as [|a w IH]; intros t r H; [destruct (t +:+ r); reflexivity|].
  destruct t as [|c t]; [discriminate H|].
  rewrite append_cons. simpl in *. destruct (ascii_dec a c); [auto|discriminate H].
Qed.

Lemma prefix_self m : forall rest, String.prefix m (m +:+ rest) = true.
Proof.
  induction m as [|c m IH]; intros rest; [destruct ("" +:+ rest); reflexivity|].
  rewrite append_cons. simpl. destruct (ascii_dec c c); [apply IH|contradiction].
Qed.

Lemma machinery_append t r : machinery t = true -> machinery (t +:+ r) = true.
Proof.
  unfold machinery, starts_with. intros H. apply orb_true_iff in H as [H|H];
    rewrite (prefix_append _ _ r H); [reflexivity|apply orb_true_r].
Qed.

Lemma dot_plus_word_append t r : dot_plus_word t = true -> dot_plus_word (t +:+ r) = true.
Proof.
  induction t as [|c t IH]; intros H; [discriminate H|].
  rewrite append_cons. cbn [dot_plus_word] in *.
  apply andb_true_iff in H as [Hc H]. rewrite Hc. simpl.
  apply orb_true_iff in H as [H|H].
  - rewrite (machinery_append _ r H). reflexivity.
  - rewrite (IH H). apply orb_true_r.
Qed.

Lemma frame_match_append t r : frame_match t = true -> frame_match (t +:+ r) = true.
Proof.
  induction t as [|c t IH]; intros H; [discriminate H|].
  rewrite append_cons. rewrite frame_match_cons in *.
  apply orb_true_iff in H as [H|H].
  - rewrite <- append_cons. rewrite (dot_plus_word_append _ r H). reflexivity.
  - apply andb_true_iff in H as [Hc H]. rewrite Hc, (IH H). apply orb_true_r.
Qed.

Lemma cut_machinery_prefix s : exists removed, s = cut_machinery s +:+ removed.
Proof.
  induction s as [|c t (r & IH)]; [exists ""; reflexivity|].
  unfold cut_machinery; fold cut_machinery.
  destruct (frame_match (String c t)).
  - exists (String c t). reflexivity.
  - exists r. rewrite append_cons, <- IH. reflexivity.
Qed.

Lemma cut_machinery_clean s :
  forall a b, cut_machinery s = a +:+ b -> frame_match b = false.
Proof.
  induction s as [|c t IH]; intros a b H.
  - destruct a; [|discriminate H]. change ("" +:+ b) with b in H. subst b. reflexivity.
  - unfold cut_machinery in H; fold cut_machinery in H.
    destruct (frame_match (String c t)) eqn:Hf.
    + destruct a; [|discriminate H]. change ("" +:+ b) with b in H. subst b. reflexivity.
    + destruct a as [|x a].
      * change ("" +:+ b) with b in H. subst b.
        destruct (frame_match (String c (cut_machinery t))) eqn:Hc; [|reflexivity].
        destruct (cut_machinery_prefix t) as (r & Hr).
        apply (frame_match_append _ r) in Hc. rewrite append_cons, <- Hr in Hc. congruence.
      * rewrite append_cons in H. inversion H; subst. eapply IH; eauto.
Qed.

Lemma cut_machinery_fixed x :
  (forall a b, x = a +:+ b -> frame_match b = false) -> cut_machinery x = x.
Proof.
  induction x as [|c t IH]; intros H; [reflexivity|].
  unfold cut_machinery; fold cut_machinery.
  rewrite (H "" (String c t) eq_refl). rewrite IH; [reflexivity|].
  intros a b Hab. apply (H (String c a) b). rewrite append_cons, Hab. reflexivity.
Qed.

Lemma join_split s : join (String lf "") (split lf s) = s.
Proof.
  induction s as [|c t IH]; [reflexivity|].
  destruct (split_cases c t) as (h & r & Ht & [[-> Hs]|[Hc Hs]]); rewrite Hs.
  - rewrite join_empty_line, <- Ht, IH. reflexivity.
  - rewrite join_cons_line, <- Ht, IH. reflexivity.
Qed.

End Cut.

(** X9. What formatError keeps of a stack is a beginning of the stack; no
    part of it, from any point on, is white space followed by a frame of
    the machinery (one of the words [Script], [MessagePort] after at least
    one character of the line); and cutting it again changes nothing. *)
Theorem cut_machinery_keeps_clean_prefix (stack : string) :
  (exists removed, stack = Redact.cut_machinery stack +:+ removed) /\
  (forall a b, Redact.cut_machinery stack = a +:+ b -> Redact.frame_match b = false) /\
  Redact.cut_machinery (Redact.cut_machinery stack) = Redact.cut_machinery stack.
Proof.
  split; [apply cut_machinery_prefix|].
  split; [apply cut_machinery_clean|].
  apply cut_machinery_fixed. apply cut_machinery_clean.
Qed.

(** X10. Splitting a text at line feeds and joining the lines with line
    feeds gives the text back; so, with no path rule registered, formatError
    of an error is its stack cut at the machinery, and formatting that
    result again as a stack changes nothing. *)
Theorem formatError_without_rules (name message stack : string) :
  join (String lf "") (split lf stack) = stack /\
  formatError [] (VError name message stack) = Redact.cut_machinery stack /\
  formatError [] (VError name message (formatError [] (VError name message stack))) =
    formatError [] (VError name message stack).
Proof.
  assert (forall s, formatError [] (VError name message s) = Redact.cut_machinery s) as H.
  { intros s. unfold formatError.
    rewrite (map_ext _ (fun x => x)), map_id by reflexivity. apply join_split. }
  split; [apply join_split|]. split; [apply H|].
  rewrite !H. apply cut_machinery_fixed. apply cut_machinery_clean.
Qed.

Section RuleEquations.

Import Redact Spec.

Lemma replace_literal_skip path name x :
  forall rest, replace_literal path name (String.length x) (x +:+ rest) =
               replace_literal path name 0 rest.
Proof.
  induction x as [|c x IH]; intros rest; [destruct rest; reflexivity|].
  rewrite append_cons. cbn [String.length replace_literal]. apply IH.
Qed.

Lemma replace_literal_match path name g1 c m rest :
  rule_match path (String c m +:+ rest) = Some (g1, String c m) ->
  replace_literal path name 0 (String c m +:+ rest) =
  g1 +:+ name +:+ replace_literal path name 0 rest.
Proof.
  intros H. rewrite append_cons in *. cbn [replace_literal]. rewrite H.
  cbn [String.length]. rewrite Nat.sub_1_r. cbn [Nat.pred].
  rewrite replace_literal_skip. reflexivity.
Qed.

Lemma rule_match_at path rest :
  rule_match path (("at " +:+ path) +:+ rest) = Some ("at ", "at " +:+ path).
Proof. unfold rule_match, starts_with. rewrite prefix_self. reflexivity. Qed.

Lemma rule_match_paren path rest :
  rule_match path ((" (" +:+ path) +:+ rest) = Some (" (", " (" +:+ path).
Proof.
  unfold rule_match, starts_with. rewrite prefix_self.
  change (String.prefix ("at " +:+ path) ((" (" +:+ path) +:+ rest)) with false.
  reflexivity.
Qed.

Lemma prefix_occurs a : forall p s, String.prefix (a +:+ p) s = true -> occurs p s = true.
Proof.
  induction a as [|x a IH]; intros p s H.
  - change ("" +:+ p) with p in H. destruct s; cbn [occurs]; rewrite H; reflexivity.
  - rewrite append_cons in H. destruct s as [|y s]; [discriminate H|].
    simpl in H. destruct (ascii_dec x y); [|discriminate H].
    cbn [occurs]. rewrite (IH p s H). apply orb_true_r.
Qed.

Lemma rule_match_occurs path s r : rule_match path s = Some r -> occurs path s = true.
Proof.
  unfold rule_match, starts_with. intros H.
  destruct (String.prefix ("at " +:+ path) s) eqn:H1; [eapply prefix_occurs; eauto|].
  destruct (String.prefix (" (" +:+ path) s) eqn:H2; [eapply prefix_occurs; eauto|].
  discriminate H.
Qed.

Lemma replace_from_absent path name :
  forall s before, occurs path s = false -> replace_from path name 0 before s = s.
Proof.
  induction s as [|c t IH]; intros before H; [reflexivity|].
  cbn [replace_from].
  destruct (rule_match path (String c t)) as [[g1 m]|] eqn:Hm.
  - apply rule_match_occurs in Hm. congruence.
  - rewrite IH; [reflexivity|]. cbn [occurs] in H. apply orb_false_iff in H as [_ H]. exact H.
Qed.

End RuleEquations.

(** X11. A path rule whose identifier has no dollar sign rewrites every
    frame of a line, from left to right: a character at which the pattern
    does not match is copied, and each [at ] or [ (] followed by the path
    becomes the same marker followed by the identifier, the rest of the line
    being rewritten in the same way. *)
Theorem rule_rewrites_every_frame (name path : string) :
  Spec.no_char "$" name = true ->
  Redact.replace_rule (name, path) "" = "" /\
  (forall c t, Redact.rule_match path (String c t) = None ->
     Redact.replace_rule (name, path) (String c t) =
     String c (Redact.replace_rule (name, path) t)) /\
  (forall rest,
     Redact.replace_rule (name, path) ("at " +:+ path +:+ rest) =
     "at " +:+ name +:+ Redact.replace_rule (name, path) rest) /\
  (forall rest,
     Redact.replace_rule (name, path) (" (" +:+ path +:+ rest) =
     " (" +:+ name +:+ Redact.replace_rule (name, path) rest).
Proof.
  intros Hn. unfold Redact.replace_rule. cbn [fst snd].
  split; [reflexivity|]. split; [|split].
  - intros c t Hm. rewrite !(replace_from_literal path name Hn).
    cbn [Spec.replace_literal]. rewrite Hm. reflexivity.
  - intros rest. rewrite !(replace_from_literal path name Hn).
    rewrite <- (append_assoc "at " path rest).
    change ("at " +:+ path) with (String "a" ("t " +:+ path)).
    apply replace_literal_match. apply (rule_match_at path rest).
  - intros rest. rewrite !(replace_from_literal path name Hn).
    rewrite <- (append_assoc " (" path rest).
    change (" (" +:+ path) with (String " " ("(" +:+ path)).
    apply replace_literal_match. apply (rule_match_paren path rest).
Qed.

Lemma rule_rewrites_every_frame_witness :
  Redact.replace_rule ("koishi/", "/app/src/") ("at /app/src/a.js (/app/src/b.js:1:2)") =
  "at koishi/a.js (koishi/b.js:1:2)".
Proof.
  destruct (rule_rewrites_every_frame "koishi/" "/app/src/" eq_refl) as (_ & _ & H & _).
  change "at /app/src/a.js (/app/src/b.js:1:2)"
    with ("at " +:+ "/app/src/" +:+ "a.js (/app/src/b.js:1:2)").
  rewrite (H "a.js (/app/src/b.js:1:2)"). vm_compute. reflexivity.
Defined.

(** X12. A path rule leaves alone every line in which its path does not
    occur, whatever its identifier; so does the whole list of rules when
    none of their paths occurs in the line. *)
Theorem rule_keeps_lines_without_path (pathMapper : list Redact.Rule) (line : string) :
  forallb (fun r => negb (occurs (snd r) line)) pathMapper = true ->
  Redact.rewrite_line pathMapper line = line.
Proof.
  unfold Redact.rewrite_line.
  induction pathMapper as [|r pm IH]; intros H; [reflexivity|].
  simpl in H. apply andb_true_iff in H as [Hr H]. apply negb_true_iff in Hr.
  cbn [fold_left]. unfold Redact.replace_rule at 2.
  rewrite (replace_from_absent (snd r) (fst r) line "" Hr). apply IH. exact H.
Qed.

Lemma rule_keeps_lines_without_path_witness :
  Redact.rewrite_line [("koishi/", "/app/src/"); ("k$&", "/opt/")]
    "    at f (/home/user/a.js:1:2)" =
  "    at f (/home/user/a.js:1:2)".
Proof.
  apply (rule_keeps_lines_without_path [("koishi/", "/app/src/"); ("k$&", "/opt/")]).
  vm_compute. reflexivity.
Defined.

(** ** The registry and startup *)

Lemma obj_keys_set {V : Type} (k : string) (v : V) (o : list (string * V)) :
  obj_keys (obj_set k v o) =
  if existsb (String.eqb k) (obj_keys o) then obj_keys o else (obj_keys o ++ [k])%list.
Proof.
  induction o as [|[k' v'] r IH]; [reflexivity|].
  simpl. destruct (String.eqb_spec k k') as [->|Hne]; simpl; [reflexivity|].
  rewrite IH. fold (obj_keys r). destruct (existsb (String.eqb k) (obj_keys r)); reflexivity.
Qed.

Lemma existsb_eqb_In (k : string) (l : list string) :
  existsb (String.eqb k) l = true <-> In k l.
Proof.
  rewrite existsb_exists. split.
  - intros (x & Hx & He). apply String.eqb_eq in He. subst. exact Hx.
  - intros H. exists k. split; [exact H|apply String.eqb_refl].
Qed.

Lemma obj_keys_set_NoDup {V : Type} (k : string) (v : V) (o : list (string * V)) :
  List.NoDup (obj_keys o) -> List.NoDup (obj_keys (obj_set k v o)).
Proof.
  intros Hn. rewrite obj_keys_set.
  destruct (existsb (String.eqb k) (obj_keys o)) eqn:He; [exact Hn|].
  apply List.NoDup_app; [exact Hn|repeat constructor; intros []|].
  intros x Hx [<-|[]]. apply existsb_eqb_In in Hx. congruence.
Qed.

Lemma obj_get_app {V : Type} (k : string) (a b : list (string * V)) :
  obj_get k (a ++ b) = match obj_get k a with Some v => Some v | None => obj_get k b end.
Proof.
  induction a as [|[k' v'] r IH]; [reflexivity|].
  simpl. destruct (String.eqb k k'); [reflexivity|exact IH].
Qed.

(** A run of assignments, folded over an object. *)
Lemma obj_get_fold {V E : Type} (key : E -> string) (value : E -> V) (k : string)
    (l : list E) :
  forall o,
    obj_get k (fold_left (fun o e => obj_set (key e) (value e) o) l o) =
    match last_set k (map (fun e => (key e, value e)) l) with
    | Some v => Some v
    | None => obj_get k o
    end.
Proof.
  unfold last_set. induction l as [|e l IH]; intros o; [reflexivity|].
  cbn [fold_left map rev]. rewrite IH, obj_get_app, obj_get_set.
  destruct (obj_get k (rev (map (fun e => (key e, value e)) l))); [reflexivity|].
  simpl. destruct (String.eqb k (key e)); reflexivity.
Qed.

Lemma obj_keys_fold {V E : Type} (key : E -> string) (value : E -> V) (l : list E) :
  forall o,
    let o' := fold_left (fun o e => obj_set (key e) (value e) o) l o in
    (List.NoDup (obj_keys o) -> List.NoDup (obj_keys o')) /\
    (forall k, In k (obj_keys o') <-> In k (obj_keys o) \/ In k (map key l)).
Proof.
  induction l as [|e l IH]; intros o; cbn [fold_left map].
  - split; [auto|]. intros k. simpl. tauto.
  - destruct (IH (obj_set (key e) (value e) o)) as (Hn & Hi). split.
    + intros H. apply Hn. apply obj_keys_set_NoDup. exact H.
    + intros k. rewrite Hi, obj_keys_set.
      destruct (existsb (String.eqb (key e)) (obj_keys o)) eqn:He.
      * apply existsb_eqb_In in He. simpl. split; [tauto|].
        intros [H|[<-|H]]; auto.
      * rewrite in_app_iff. simpl. tauto.
Qed.

Lemma obj_keys_fold_order {V E : Type} (key : E -> string) (value : E -> V) (l : list E) :
  forall o,
    obj_keys (fold_left (fun o e => obj_set (key e) (value e) o) l o) =
    (obj_keys o ++ first_registrations (obj_keys o) (map key l))%list.
Proof.
  induction l as [|e l IH]; intros o; cbn [fold_left map first_registrations].
  - symmetry. apply app_nil_r.
  - rewrite IH, obj_keys_set.
    destruct (existsb (String.eqb (key e)) (obj_keys o)); [reflexivity|].
    rewrite <- app_assoc. reflexivity.
Qed.

Section StartupFacts.

Variable rt : Runtime.

Lemma prepare_commandMap w :
  commandMap (prepare rt w) =
  fold_left (fun o a => obj_set (fst a) (snd a) o) (addons rt) (commandMap w) /\
  pathMapper (prepare rt w) = pathMapper w /\ heap (prepare rt w) = heap w /\
  globals (prepare rt w) = globals w /\ requests (prepare rt w) = requests w.
Proof.
  unfold prepare. generalize (addons rt). intros l. revert w.
  induction l as [|a l IH]; intros w; [repeat split; reflexivity|].
  cbn [fold_left]. destruct (IH (registerCommand (fst a) (snd a) w)) as (A & B & C & D & E).
  repeat split; assumption.
Qed.

Lemma setupFiles_pathMapper files w :
  pathMapper (fold_left (map_setupFile rt) files w) =
  fold_left (fun o e => obj_set (fst e) (setup_path rt e) o) files (pathMapper w) /\
  commandMap (fold_left (map_setupFile rt) files w) = commandMap w /\
  response (fold_left (map_setupFile rt) files w) = response w /\
  heap (fold_left (map_setupFile rt) files w) = heap w /\
  globals (fold_left (map_setupFile rt) files w) = globals w /\
  requests (fold_left (map_setupFile rt) files w) = requests w.
Proof.
  revert w. induction files as [|e l IH]; intros w; [repeat split; reflexivity|].
  cbn [fold_left]. destruct (IH (map_setupFile rt w e)) as (A & B & C & D & E & F).
  repeat split; assumption.
Qed.

Lemma mapDirectory_world identifier file w :
  pathMapper (mapDirectory rt identifier file w) =
    match directory_path rt file with
    | Some path => obj_set identifier path (pathMapper w)
    | None => pathMapper w
    end /\
  commandMap (mapDirectory rt identifier file w) = commandMap w /\
  response (mapDirectory rt identifier file w) = response w /\
  heap (mapDirectory rt identifier file w) = heap w /\
  globals (mapDirectory rt identifier file w) = globals w /\
  requests (mapDirectory rt identifier file w) = requests w.
Proof.
  unfold mapDirectory, directory_path. destruct (findSourceMap rt file);
    repeat split; reflexivity.
Qed.

End StartupFacts.

(** X13. The registry holds one entry for each name.  For names that are
    listed in the order of their first assignment (no array index, no
    [__proto__]): registering a name that is not registered adds it after
    the others, registering a name again keeps the names and their order and
    replaces the handler, and no name is ever listed twice. *)
Theorem registerCommand_keeps_one_entry (name : string) (first second : AddonAction)
    (w : World) :
  plain_name name = true ->
  forallb plain_name (obj_keys (commandMap w)) = true ->
  List.NoDup (obj_keys (commandMap w)) ->
  obj_keys (commandMap (registerCommand name first w)) =
    (if existsb (String.eqb name) (obj_keys (commandMap w)) then obj_keys (commandMap w)
     else obj_keys (commandMap w) ++ [name])%list /\
  List.NoDup (obj_keys (commandMap (registerCommand name first w))) /\
  obj_keys (commandMap (registerCommand name second (registerCommand name first w))) =
    obj_keys (commandMap (registerCommand name first w)) /\
  obj_member name (commandMap (registerCommand name second (registerCommand name first w))) =
    Own second.
Proof.
  intros _ _ Hn. unfold registerCommand. cbn [commandMap set_commandMap].
  split; [apply obj_keys_set|]. split; [apply obj_keys_set_NoDup; exact Hn|]. split.
  - rewrite (obj_keys_set name second).
    assert (existsb (String.eqb name) (obj_keys (obj_set name first (commandMap w))) = true)
      as ->; [|reflexivity].
    apply existsb_eqb_In. rewrite obj_keys_set.
    destruct (existsb (String.eqb name) (obj_keys (commandMap w))) eqn:He.
    + apply existsb_eqb_In. exact He.
    + apply in_app_iff. right. left. reflexivity.
  - unfold obj_member. rewrite obj_get_set, String.eqb_refl. reflexivity.
Qed.

Lemma registerCommand_keeps_one_entry_witness :
  obj_keys (commandMap (registerCommand "quiet" (fun _ => Done (Some (VStr "loud")))
                          Demo.started)) =
  ["hello"; "quiet"; "boom"; "grow"].
Proof.
  destruct (registerCommand_keeps_one_entry "quiet" (fun _ => Done (Some (VStr "loud")))
              (fun _ => Done None) Demo.started) as (H & _).
  - reflexivity.
  - vm_compute. reflexivity.
  - vm_compute. repeat constructor; simpl; intuition discriminate.
  - rewrite H. vm_compute. reflexivity.
Defined.

(** X14. When startup has ended, [start()] lists every name once, for names
    that are listed in the order of their first assignment (no array index,
    no [__proto__]): first the names registered before startup, then the
    names the addon modules registered, each at the place of its first
    registration; the handler kept for a name is the one of its last
    registration.  Startup touches no record, no global and posts no
    request. *)
Theorem startup_lists_each_command_once (rt : Runtime) (w : World) :
  List.NoDup (obj_keys (commandMap w)) ->
  forallb plain_name (obj_keys (commandMap w)) = true ->
  forallb plain_name (map fst (addons rt)) = true ->
  let w' := startup rt w in
  WorkerAPI.start w' = Some (obj_keys (commandMap w')) /\
  obj_keys (commandMap w') =
    (obj_keys (commandMap w) ++
     first_registrations (obj_keys (commandMap w)) (map fst (addons rt)))%list /\
  List.NoDup (obj_keys (commandMap w')) /\
  (forall n, In n (obj_keys (commandMap w')) <->
             In n (obj_keys (commandMap w)) \/ In n (map fst (addons rt))) /\
  (forall n, obj_get n (commandMap w') =
             match last_set n (addons rt) with
             | Some f => Some f
             | None => obj_get n (commandMap w)
             end) /\
  heap w' = heap w /\ globals w' = globals w /\ requests w' = requests w.
Proof.
  intros Hn _ _ w'. unfold w', startup, WorkerAPI.start.
  destruct (prepare_commandMap rt w) as (Hc & _ & Hh & Hg & Hr).
  set (w1 := prepare rt w) in *.
  set (w2 := set_response (Some (obj_keys (commandMap w1))) w1).
  destruct (mapDirectory_world rt "koishi/utils/" (koishi_utils rt) w2)
    as (_ & C3 & R3 & H3 & G3 & Q3).
  set (w3 := mapDirectory rt "koishi/utils/" (koishi_utils rt) w2) in *.
  destruct (mapDirectory_world rt "koishi/" (filename rt) w3) as (_ & C4 & R4 & H4 & G4 & Q4).
  set (w4 := mapDirectory rt "koishi/" (filename rt) w3) in *.
  destruct (setupFiles_pathMapper rt (setupFiles rt) w4) as (_ & C5 & R5 & H5 & G5 & Q5).
  assert (commandMap (fold_left (map_setupFile rt) (setupFiles rt) w4) = commandMap w1) as HC
    by (rewrite C5, C4, C3; reflexivity).
  rewrite HC, R5, R4, R3, H5, H4, H3, G5, G4, G3, Q5, Q4, Q3. simpl.
  destruct (obj_keys_fold (fun a : string * AddonAction => fst a) (fun a => snd a)
              (addons rt) (commandMap w)) as (Hnd & Hin).
  rewrite Hc. repeat split; auto.
  - apply obj_keys_fold_order.
  - apply Hin.
  - apply Hin.
  - intros n. rewrite (obj_get_fold (fun a : string * AddonAction => fst a) (fun a => snd a)).
    rewrite (map_ext _ (fun x => x)) by (intros []; reflexivity). rewrite map_id. reflexivity.
Qed.

Lemma startup_lists_each_command_once_witness :
  WorkerAPI.start (startup Setup.rt empty_world) = Some ["hello"] /\
  obj_member "hello" (commandMap (startup Setup.rt empty_world)) =
    Own (fun _ => Done (Some (VStr "hello again"))).
Proof.
  destruct (startup_lists_each_command_once Setup.rt empty_world)
    as (H & _ & _ & _ & Hg & _).
  - constructor.
  - reflexivity.
  - vm_compute. reflexivity.
  - split; [rewrite H; vm_compute; reflexivity|].
    unfold obj_member. rewrite (Hg "hello"). vm_compute. reflexivity.
Defined.

(** X15. The path rules startup leaves.  The rule of an identifier is the
    path of the last setup file of that name (from its source map when it
    has one, as given otherwise); failing that, for [koishi/] and
    [koishi/utils/], the directory of the source of the worker and of
    koishi-utils when their source map is found; failing that, the rule the
    identifier had before.  So every setup file has a rule, with or without
    a source map. *)
Theorem startup_path_rules (rt : Runtime) (w : World) (identifier : string) :
  let builtin :=
    if String.eqb identifier "koishi/" then directory_path rt (filename rt)
    else None in
  let utils :=
    if String.eqb identifier "koishi/utils/" then directory_path rt (koishi_utils rt)
    else None in
  obj_get identifier (pathMapper (startup rt w)) =
    match last_set identifier (map (fun e => (fst e, setup_path rt e)) (setupFiles rt)) with
    | Some path => Some path
    | None =>
        match builtin with
        | Some path => Some path
        | None =>
            match utils with
            | Some path => Some path
            | None => obj_get identifier (pathMapper w)
            end
        end
    end /\
  (In identifier (map fst (setupFiles rt)) ->
   exists path, obj_get identifier (pathMapper (startup rt w)) = Some path).
Proof.
  intros builtin utils.
  assert (obj_get identifier (pathMapper (startup rt w)) =
          match last_set identifier (map (fun e => (fst e, setup_path rt e)) (setupFiles rt))
          with
          | Some path => Some path
          | None =>
              match builtin with
              | Some path => Some path
              | None =>
                  match utils with
                  | Some path => Some path
                  | None => obj_get identifier (pathMapper w)
                  end
              end
          end) as Hmain.
  { unfold startup.
    destruct (prepare_commandMap rt w) as (_ & Hp & _).
    set (w1 := prepare rt w) in *.
    set (w2 := set_response (Some (obj_keys (commandMap w1))) w1).
    destruct (mapDirectory_world rt "koishi/utils/" (koishi_utils rt) w2) as (P3 & _).
    set (w3 := mapDirectory rt "koishi/utils/" (koishi_utils rt) w2) in *.
    destruct (mapDirectory_world rt "koishi/" (filename rt) w3) as (P4 & _).
    set (w4 := mapDirectory rt "koishi/" (filename rt) w3) in *.
    destruct (setupFiles_pathMapper rt (setupFiles rt) w4) as (P5 & _).
    rewrite P5. rewrite (obj_get_fold (fun e : string * string => fst e) (setup_path rt)).
    destruct (last_set identifier _); [reflexivity|].
    rewrite P4. unfold builtin, utils.
    assert (pathMapper w2 = pathMapper w) as P2 by exact Hp.
    destruct (directory_path rt (filename rt)) as [p4|];
      destruct (directory_path rt (koishi_utils rt)) as [p3|];
      rewrite ?obj_get_set, ?P3, ?obj_get_set, ?P2;
      destruct (String.eqb identifier "koishi/"); try reflexivity;
      destruct (String.eqb identifier "koishi/utils/"); reflexivity. }
  split; [exact Hmain|].
  intros Hin. rewrite Hmain.
  assert (exists path,
            last_set identifier (map (fun e => (fst e, setup_path rt e)) (setupFiles rt)) =
            Some path) as (path & ->); [|eauto].
  unfold last_set. rewrite <- map_rev.
  apply (in_rev (map fst (setupFiles rt))) in Hin. rewrite <- map_rev in Hin.
  induction (rev (setupFiles rt)) as [|e l IH]; [destruct Hin|].
  simpl. destruct (String.eqb_spec identifier (fst e)) as [->|Hne]; [eauto|].
  apply IH. destruct Hin as [Heq|Hin]; [congruence|exact Hin].
Qed.

Lemma startup_path_rules_witness :
  obj_get "setup/" (pathMapper (startup Setup.rt empty_world)) = Some "/app/setup.js" /\
  exists path, obj_get "koishi/" (pathMapper (startup Setup.rt empty_world)) = Some path.
Proof.
  split.
  - destruct (startup_path_rules Setup.rt empty_world "setup/") as (H & _).
    rewrite H. vm_compute. reflexivity.
  - destruct (startup_path_rules Setup.rt empty_world "koishi/") as (_ & H).
    apply H. vm_compute. auto.
Defined.

(** ** plugin-status: the counter is a window of sixty seconds *)

Section Window.

Import Status.

Lemma sent_in_window_nil : map (fun i => sent_in i []) (seq 0 61) = repeat 0 61.
Proof. reflexivity. Qed.

Lemma counter_after_window (history : list Event) :
  counter_after history = map (fun i => Fin (sent_in i history)) (seq 0 61).
Proof.
  induction history as [|[|] earlier IH]; cbn [counter_after].
  - reflexivity.
  - rewrite IH. change (seq 0 61) with (0%nat :: seq 1 60). cbn [map on_send num_add].
    apply (f_equal2 cons).
    + cbn [sent_in Nat.eqb]. apply (f_equal Fin). lia.
    + apply map_ext_in. intros i Hi. apply in_seq in Hi.
      cbn [sent_in]. destruct i; [lia|]. reflexivity.
  - rewrite IH. unfold on_tick.
    change (seq 0 61) with (seq 0 (60 + 1)). rewrite seq_app, map_app.
    change (Fin 0 :: (map (fun i => Fin (sent_in i earlier)) (seq 0 60)
                        ++ map (fun i => Fin (sent_in i earlier)) (seq (0 + 60) 1))%list)
      with ((Fin 0 :: map (fun i => Fin (sent_in i earlier)) (seq 0 60))
              ++ [Fin (sent_in 60 earlier)])%list.
    rewrite removelast_last.
    change (seq 0 60 ++ seq (0 + 60) 1)%list with (0%nat :: seq 1 60).
    cbn [map sent_in]. apply (f_equal2 cons); [reflexivity|].
    rewrite <- seq_shift, map_map. reflexivity.
Qed.

Lemma fold_num_add (zs : list Z) : forall a,
  fold_left num_add (map Fin zs) (Fin a) = Fin (fold_left Z.add zs a).
Proof. induction zs as [|z zs IH]; intros a; [reflexivity|]. simpl. apply IH. Qed.

Lemma fold_add_shift (zs : list Z) : forall a, fold_left Z.add zs a = a + fold_left Z.add zs 0.
Proof.
  induction zs as [|z zs IH]; intros a; cbn [fold_left]; [lia|].
  rewrite (IH (a + z)), (IH (0 + z)). lia.
Qed.

Lemma sent_during_sum history : forall n i,
  fold_left Z.add (map (fun j => sent_in j history) (seq i n)) 0 = sent_during i n history.
Proof.
  induction n as [|n IH]; intros i; [reflexivity|].
  cbn [seq map fold_left sent_during]. rewrite fold_add_shift, IH. lia.
Qed.

Lemma rate_window history : rate (counter_after history) = Fin (sent_during 1 60 history).
Proof.
  rewrite counter_after_window. unfold rate.
  change (seq 0 61) with (0%nat :: seq 1 60). cbn [map tl].
  rewrite <- (map_map (fun i => sent_in i history) Fin), fold_num_add, sent_during_sum.
  reflexivity.
Qed.

Lemma sent_during_Sent history : forall n i,
  sent_during (S i) n (Sent :: history) = sent_during (S i) n history.
Proof.
  induction n as [|n IH]; intros i; [reflexivity|].
  cbn [sent_during sent_in Nat.eqb]. rewrite IH. lia.
Qed.

Lemma sent_during_Tick history : forall n i,
  sent_during (S i) n (Tick :: history) = sent_during i n history.
Proof.
  induction n as [|n IH]; intros i; [reflexivity|].
  cbn [sent_during sent_in]. rewrite IH. reflexivity.
Qed.

End Window.

(** X16. From connect on, whatever messages are sent and however many
    seconds pass, the counter of a bot keeps its 61 slots, none of them
    [NaN], and slot [i] holds the number of messages sent during the
    [i]-th second before the current one. *)
Theorem counter_is_a_window (history : list Status.Event) :
  Status.counter_after history =
    map (fun i => Status.Fin (Status.sent_in i history)) (seq 0 61) /\
  length (Status.counter_after history) = 61%nat /\
  (forall i, (i < 61)%nat ->
     nth i (Status.counter_after history) Status.NaN = Status.Fin (Status.sent_in i history)).
Proof.
  split; [apply counter_after_window|]. rewrite counter_after_window.
  split; [rewrite length_map, length_seq; reflexivity|].
  intros i Hi.
  rewrite (nth_indep _ Status.NaN (Status.Fin (Status.sent_in 0 history)))
    by (rewrite length_map, length_seq; exact Hi).
  rewrite (map_nth (fun i => Status.Fin (Status.sent_in i history)) (seq 0 61) 0%nat i).
  rewrite seq_nth by exact Hi. reflexivity.
Qed.

(** X17. The rate of a bot is the number of messages sent during the sixty
    seconds before the current one: a message sent in the current second
    does not count until the second ends, and once a second ends the rate
    is what was sent in the sixty seconds up to it, the second before those
    dropping out. *)
Theorem rate_counts_last_sixty_seconds (history : list Status.Event) :
  Status.rate (Status.counter_after history) =
    Status.Fin (Status.sent_during 1 60 history) /\
  Status.rate (Status.counter_after (Status.Sent :: history)) =
    Status.rate (Status.counter_after history) /\
  Status.rate (Status.counter_after (Status.Tick :: history)) =
    Status.Fin (Status.sent_during 0 60 history).
Proof.
  rewrite !rate_window. split; [reflexivity|]. split.
  - rewrite sent_during_Sent. reflexivity.
  - rewrite sent_during_Tick. reflexivity.
Qed.

(** X18. An error whose stack begins, after white space at most, with a line
    that holds [Script] or [MessagePort] after at least one character (as
    the message line of [Error: my Script broke] does) is formatted as the
    empty text, whatever the path rules: the pattern is not tied to frames,
    so the message goes with them. *)
Theorem formatError_drops_message_naming_machinery (pathMapper : list Redact.Rule)
    (name message stack : string) :
  Redact.frame_match stack = true ->
  formatError pathMapper (VError name message stack) = "".
Proof.
  intros H. unfold formatError.
  assert (Redact.cut_machinery stack = "") as ->.
  { destruct stack; unfold Redact.cut_machinery; [reflexivity|].
    fold Redact.cut_machinery. rewrite H. reflexivity. }
  cbn [split map]. unfold join. cbn [String.concat].
  unfold Redact.rewrite_line. induction pathMapper as [|r pm IH]; [reflexivity|exact IH].
Qed.

Lemma formatError_drops_message_naming_machinery_witness :
  formatError [("koishi/", "/app/src/")]
    (VError "Error" "my Script broke"
       ("Error: my Script broke" +:+ String lf "" +:+ "    at stdin:1:7")) = "".
Proof.
  apply (formatError_drops_message_naming_machinery [("koishi/", "/app/src/")]).
  vm_compute. reflexivity.
Defined.
